(** * Digital lock: keypad scanner and PIN state machine

    A shallow embedding of the two firmware variants of the repository:

    - [Oled]     : [main.c], the keypad / SSD1306 OLED / status-LED build;
    - [SevenSeg] : [main copy 2.c], the keypad / 7-segment build.

    ([main copy.c], which only prints the raw value of four input lines, has
    no keypad decoding and no PIN logic and is not modelled.)

    Both builds keep the same four globals ([storedPassword],
    [enteredPassword], [index], [mode]) and the same [static char lastKey]
    inside [getKeypadInput].  C [char]s, [unsigned char]s and [int]s are
    modelled as [Z]; [char] arrays are lists of [Z] of the declared size;
    everything a function does to the outside world (port writes, busy-wait
    delays, display-library calls) is recorded in an output trace. *)

From Stdlib Require Import ZArith Lia Bool Ascii String.
From stdpp Require Import base list.

Local Open Scope Z_scope.

(** ** C characters and string literals *)

(** A character constant such as ['A']. *)
Definition chr (c : ascii) : Z := Z.of_N (N_of_ascii c).

(** The array a string literal denotes: its characters and the final NUL. *)
Definition cstring (s : string) : list Z :=
  (chr <$> list_ascii_of_string s) ++ [0].

(** Conversion to [unsigned char]. *)
Definition to_uchar (x : Z) : Z := x mod 256.

(** [a[i]]; positions outside the array read as NUL. *)
Definition rd (a : list Z) (i : Z) : Z := default 0 (a !! Z.to_nat i).

(** [a[i] = v]. *)
Definition wr (a : list Z) (i : Z) (v : Z) : list Z := <[Z.to_nat i := v]> a.

(** ** The parts of the C library the firmware calls *)

(** [strlen]: number of characters before the first NUL (the end of the
    array stands for a NUL). *)
Fixpoint strlen (s : list Z) : Z :=
  match s with
  | [] => 0
  | c :: s' => if c =? 0 then 0 else 1 + strlen s'
  end.

(** The characters of a C string, without the terminator. *)
Fixpoint str_chars (s : list Z) : list Z :=
  match s with
  | [] => []
  | c :: s' => if c =? 0 then [] else c :: str_chars s'
  end.

(** [strcmp]: difference of the first pair of characters that differ, 0 when
    both strings end together. *)
Fixpoint strcmp (a b : list Z) : Z :=
  match a, b with
  | [], [] => 0
  | [], y :: _ => 0 - y
  | x :: _, [] => x
  | x :: a', y :: b' =>
      if x =? y then (if x =? 0 then 0 else strcmp a' b') else x - y
  end.

(** [strcpy (dst, src)]: the characters of [src] and its NUL overwrite the
    front of [dst].  This is the C function when [src] holds a NUL and the
    copy fits [dst], as it does for well-formed globals ([state_ok] below);
    otherwise C leaves the behaviour undefined. *)
Definition strcpy (dst src : list Z) : list Z :=
  let copied := str_chars src ++ [0] in
  copied ++ drop (length copied) dst.

(** [memset (a, c, n)]. *)
Definition memset (a : list Z) (c : Z) (n : nat) : list Z :=
  replicate n c ++ drop n a.

(** ** Hardware-level output trace *)

Inductive port := P1OUT | P2OUT | P4OUT | P6OUT.

Inductive hw_event :=
| PortWrite (p : port) (v : Z)                (* P = v    *)
| PortSet (p : port) (m : Z)                  (* P |= m   *)
| PortClear (p : port) (m : Z)                (* P &= ~m  *)
| PortToggle (p : port) (m : Z)               (* P ^= m   *)
| DelayCycles (n : Z)                         (* __delay_cycles (n) *)
| Ssd1306ClearDisplay                         (* ssd1306_clearDisplay () *)
| Ssd1306PrintTextBlock (x y : Z) (text : list Z).

(** Bit masks of [msp430.h]. *)
Definition BIT0 : Z := 0x01.
Definition BIT3 : Z := 0x08.
Definition BIT4 : Z := 0x10.
Definition BIT5 : Z := 0x20.
Definition BIT6 : Z := 0x40.

Definition MAX_PASSWORD_LENGTH : Z := 4.

(** ** Port registers

    The 8-bit registers the firmware writes, kept in a register file, and
    what each entry of an output trace does to them. *)

Definition BIT2 : Z := 0x04.

Inductive register :=
| OUT (p : port)
| P1DIR | P1REN
| P2SEL | P2DIR | P2REN
| P4DIR
| P6DIR.

#[global] Instance port_eq_dec : EqDecision port.
Proof. solve_decision. Defined.

#[global] Instance register_eq_dec : EqDecision register.
Proof. solve_decision. Defined.

Definition regs : Type := register → Z.

(** [r = v;] *)
Definition reg_write (r : register) (v : Z) (g : regs) : regs :=
  λ r', if decide (r' = r) then to_uchar v else g r'.

(** [r |= m;] *)
Definition reg_set (r : register) (m : Z) (g : regs) : regs :=
  reg_write r (Z.lor (g r) m) g.

(** [r &= ~m;] *)
Definition reg_clear (r : register) (m : Z) (g : regs) : regs :=
  reg_write r (Z.land (g r) (Z.lnot m)) g.

(** [r ^= m;] *)
Definition reg_toggle (r : register) (m : Z) (g : regs) : regs :=
  reg_write r (Z.lxor (g r) m) g.

(** A sequence of statements, executed in order. *)
Definition seq_ops (ops : list (regs → regs)) (g : regs) : regs :=
  fold_left (λ g op, op g) ops g.

Definition apply_hw (e : hw_event) (g : regs) : regs :=
  match e with
  | PortWrite p v => reg_write (OUT p) v g
  | PortSet p m => reg_set (OUT p) m g
  | PortClear p m => reg_clear (OUT p) m g
  | PortToggle p m => reg_toggle (OUT p) m g
  | DelayCycles _ | Ssd1306ClearDisplay | Ssd1306PrintTextBlock _ _ _ => g
  end.

Definition run_hw (t : list hw_event) (g : regs) : regs :=
  fold_left (λ g e, apply_hw e g) t g.

(** Cycles spent in [__delay_cycles] by a trace. *)
Definition delay_cycles (t : list hw_event) : Z :=
  foldr (λ e n, match e with DelayCycles c => c + n | _ => n end) 0 t.

(** The two status LEDs of [main.c]: lit when P1.4 (locked), respectively
    P1.5 (unlocked), is high. *)
Definition locked_led (g : regs) : bool := Z.testbit (g (OUT P1OUT)) 4.
Definition unlocked_led (g : regs) : bool := Z.testbit (g (OUT P1OUT)) 5.

(** Every register holds an 8-bit value. *)
Definition regs_ok (g : regs) : Prop := ∀ r, 0 ≤ g r < 256.

(** The register file after power-up reset, all zero, used in examples. *)
Definition regs_reset : regs := λ _, 0.

(** The keypad and strobe pins are as [setupGPIO] of [main copy 2.c] leaves
    them. *)
Definition sevenseg_pins_ok (g : regs) : Prop :=
  (∀ i, 3 ≤ i ≤ 6 →
     Z.testbit (g P2SEL) i = false ∧ Z.testbit (g P2DIR) i = false ∧
     Z.testbit (g P2REN) i = true ∧ Z.testbit (g (OUT P2OUT)) i = true) ∧
  Z.testbit (g P2DIR) 0 = true ∧
  Z.testbit (g (OUT P2OUT)) 0 = false.

(** Trace entries that can change nothing but the two LED pins. *)
Definition led_event (e : hw_event) : Prop :=
  match e with
  | PortSet P1OUT m | PortClear P1OUT m | PortToggle P1OUT m => m = BIT4 ∨ m = BIT5
  | DelayCycles _ | Ssd1306ClearDisplay | Ssd1306PrintTextBlock _ _ _ => True
  | _ => False
  end.

(** ** Keypad decoding

    The [switch (bcd)] of [getKeypadInput]; the two builds have the same
    sixteen cases and the same [default]. *)
Definition keymap (bcd : Z) : Z :=
  match bcd with
  | 0 => chr "1"
  | 1 => chr "2"
  | 2 => chr "3"
  | 3 => chr "A"
  | 4 => chr "4"
  | 5 => chr "5"
  | 6 => chr "6"
  | 7 => chr "B"
  | 8 => chr "7"
  | 9 => chr "8"
  | 10 => chr "9"
  | 11 => chr "C"
  | 12 => chr "*"
  | 13 => chr "0"
  | 14 => chr "#"
  | 15 => chr "D"
  | _ => 0
  end.

(** The lines P2.3-P2.6 are inputs with pull-up resistors ([setupGPIO]): a
    line nobody drives reads 1. *)
Definition keypad_mask : Z := Z.lor (Z.lor (Z.lor BIT3 BIT4) BIT5) BIT6.
Definition lines_idle (P2IN : Z) : Prop := Z.land P2IN keypad_mask = keypad_mask.

(** Result of one call of [getKeypadInput]: the returned character, the new
    value of the [static] variable and the delay it executed. *)
Record poll_result := PollResult {
  returned : Z;
  lastKey' : Z;
  poll_trace : list hw_event;
}.

(** ** The globals of the lock controller *)

Record lock_state := LockState {
  storedPassword : list Z;     (* char storedPassword[MAX_PASSWORD_LENGTH + 1] *)
  enteredPassword : list Z;    (* char enteredPassword[MAX_PASSWORD_LENGTH + 1] *)
  index : Z;                   (* unsigned char index *)
  mode : Z;                    (* int mode: 0 unlocked, 1 set PIN, 2 locked, 3 enter PIN *)
}.

(** The initialisers: ["0000"], [{0}], [0], [0]. *)
Definition initial_state : lock_state :=
  LockState (cstring "0000") (replicate 5 0) 0 0.

(** [key >= '0' && key <= '9']. *)
Definition is_digit (key : Z) : bool := (chr "0" <=? key) && (key <=? chr "9").

(** [enteredPassword[index++] = key; enteredPassword[index] = '\0';] *)
Definition append_key (key : Z) (s : lock_state) : lock_state :=
  let e1 := wr (enteredPassword s) (index s) key in
  let i1 := to_uchar (index s + 1) in
  LockState (storedPassword s) (wr e1 i1 0) i1 (mode s).

(** [index = 0; memset (enteredPassword, 0, sizeof (enteredPassword));] with
    the new [mode]. *)
Definition begin_entry (m : Z) (s : lock_state) : lock_state :=
  LockState (storedPassword s) (memset (enteredPassword s) 0 5) 0 m.

(** [strcpy (storedPassword, enteredPassword); mode = 2;] *)
Definition save_pin (s : lock_state) : lock_state :=
  LockState (strcpy (storedPassword s) (enteredPassword s)) (enteredPassword s)
            (index s) 2.

(** [mode = m;] *)
Definition set_mode (m : Z) (s : lock_state) : lock_state :=
  LockState (storedPassword s) (enteredPassword s) (index s) m.

Module Oled.

(** [bcd] of [main.c]: mask, then shift by 3. *)
Definition bcd (P2IN : Z) : Z := to_uchar (Z.shiftr (Z.land P2IN keypad_mask) 3).

Definition getKeypadInput (P2IN lastKey : Z) : poll_result :=
  let key := keymap (bcd P2IN) in
  if key =? lastKey then PollResult 0 lastKey []
  else PollResult key key [DelayCycles 200000].

(** The output functions [main] calls. *)
Inductive call :=
| DisplayMessage (msg : list Z)
| SetLockedLEDOn
| SetLockedLEDOff
| FlashLockedLED
| SetUnlockedLEDOn
| SetUnlockedLEDOff.

(** [snprintf (buffer, sizeof (buffer), "%s ", msg)] with [char buffer[100]],
    then the two library calls and the delay. *)
Definition displayMessage (msg : list Z) : list hw_event :=
  let buffer := take 99 (str_chars msg ++ [chr " "]) ++ [0] in
  [Ssd1306ClearDisplay; Ssd1306PrintTextBlock 0 2 buffer; DelayCycles 100000].

Definition flashLockedLED : list hw_event :=
  concat (replicate 10 [PortToggle P1OUT BIT4; DelayCycles 3000000;
                        PortToggle P1OUT BIT4; DelayCycles 3000000]).

Definition exec (c : call) : list hw_event :=
  match c with
  | DisplayMessage msg => displayMessage msg
  | SetLockedLEDOn => [PortSet P1OUT BIT4]
  | SetLockedLEDOff => [PortClear P1OUT BIT4]
  | FlashLockedLED => flashLockedLED
  | SetUnlockedLEDOn => [PortSet P1OUT BIT5]
  | SetUnlockedLEDOff => [PortClear P1OUT BIT5]
  end.

(** What [main] shows before it enters the loop. *)
Definition startup : list call :=
  [DisplayMessage (cstring "Unlocked. Press A to set PIN"); SetLockedLEDOff;
   SetUnlockedLEDOn].

(** The body of [if (key) { ... }] in [main]: new globals and the output
    calls made, in order. *)
Definition handle (key : Z) (s : lock_state) : lock_state * list call :=
  if mode s =? 0 then
    if key =? chr "A" then
      (begin_entry 1 s,
       [DisplayMessage (cstring "Enter New PIN:"); SetLockedLEDOff;
        SetUnlockedLEDOff])
    else (s, [])
  else if mode s =? 1 then
    if is_digit key then
      if index s <? MAX_PASSWORD_LENGTH then
        let s' := append_key key s in
        (s', [DisplayMessage (enteredPassword s')])
      else (s, [])
    else if key =? chr "B" then
      if index s =? MAX_PASSWORD_LENGTH then
        (save_pin s,
         [DisplayMessage (cstring "Locked. Press C to enter PIN"); SetLockedLEDOn;
          SetUnlockedLEDOff])
      else (s, [])
    else (s, [])
  else if mode s =? 2 then
    if key =? chr "C" then
      (begin_entry 3 s,
       [DisplayMessage (cstring "Enter PIN, then press D"); SetLockedLEDOn;
        SetUnlockedLEDOff])
    else (s, [])
  else if mode s =? 3 then
    if is_digit key then
      if index s <? MAX_PASSWORD_LENGTH then
        let s' := append_key key s in
        (s', [DisplayMessage (enteredPassword s')])
      else (s, [])
    else if key =? chr "D" then
      if index s =? MAX_PASSWORD_LENGTH then
        if strcmp (storedPassword s) (enteredPassword s) =? 0 then
          (set_mode 0 s,
           [DisplayMessage (cstring "Unlocked. Press A to set PIN"); SetLockedLEDOff;
            SetUnlockedLEDOn])
        else
          (set_mode 2 s,
           [DisplayMessage (cstring "Wrong PIN! Press C to try again"); FlashLockedLED;
            SetLockedLEDOn; SetUnlockedLEDOff])
      else (s, [])
    else (s, [])
  else (s, []).

(** One turn of [while (1)]: poll, and handle the key if there is one. *)
Definition loop_iteration (P2IN : Z) (st : Z * lock_state)
  : Z * lock_state * list hw_event :=
  let r := getKeypadInput P2IN st.1 in
  if returned r =? 0 then (lastKey' r, st.2, poll_trace r)
  else
    let '(s', calls) := handle (returned r) st.2 in
    (lastKey' r, s', poll_trace r ++ concat (exec <$> calls)).


(** [setupGPIO] of [main.c]: the two LED pins are outputs, driven low; the
    four keypad pins are GPIO inputs with pull-up resistors. *)
Definition setupGPIO : regs → regs :=
  seq_ops [reg_set P1DIR (Z.lor BIT4 BIT5);
           reg_clear (OUT P1OUT) (Z.lor BIT4 BIT5);
           reg_clear P2SEL keypad_mask;
           reg_clear P2DIR keypad_mask;
           reg_set P2REN keypad_mask;
           reg_set (OUT P2OUT) keypad_mask].

(** [main] up to the loop, on the port registers (the clock, I2C and display
    initialisation belong to the display library). *)
Definition main_init (g : regs) : regs :=
  run_hw (concat (exec <$> startup)) (setupGPIO g).

End Oled.

Module SevenSeg.

(** [bcd] of [main copy 2.c]: same mask, shift by 2. *)
Definition bcd (P2IN : Z) : Z := to_uchar (Z.shiftr (Z.land P2IN keypad_mask) 2).

Definition getKeypadInput (P2IN lastKey : Z) : poll_result :=
  let key := keymap (bcd P2IN) in
  if key =? lastKey then PollResult 0 lastKey []
  else PollResult key key [DelayCycles 200000].

(** The output functions [main] calls; [UpdateDisplay] carries the contents
    of the array its argument points to at the time of the call. *)
Inductive call :=
| UpdateDisplay (digits : list Z)
| ClearDisplay
| DisplayError.

(** First loop of [updateDisplay]: the four characters shown, ['0'] for
    the positions past the end of the string. *)
Definition displayBuffer (digits : list Z) : list Z :=
  let len := strlen digits in
  ((λ i, if i <? len then rd digits i else chr "0") <$> seqZ 0 4) ++ [0].

(** [displayBuffer[i] - '0'] for a digit, 0 otherwise. *)
Definition digitVal (c : Z) : Z :=
  if (chr "0" <=? c) && (c <=? chr "9") then c - chr "0" else 0.

(** Second loop of [updateDisplay] and the strobe pulse. *)
Definition updateDisplay (digits : list Z) : list hw_event :=
  let buf := displayBuffer digits in
  concat ((λ i, [PortWrite P4OUT i; PortWrite P6OUT (digitVal (rd buf i));
                 DelayCycles 50000]) <$> seqZ 0 4)
  ++ [PortSet P2OUT BIT0; DelayCycles 50000; PortClear P2OUT BIT0].

Definition clearDisplay : list hw_event := updateDisplay (cstring "0000").

Definition displayError : list hw_event :=
  updateDisplay (cstring "8888") ++ [DelayCycles 200000].

Definition exec (c : call) : list hw_event :=
  match c with
  | UpdateDisplay digits => updateDisplay digits
  | ClearDisplay => clearDisplay
  | DisplayError => displayError
  end.

(** What [main] shows before it enters the loop. *)
Definition startup (s : lock_state) : list call :=
  [UpdateDisplay (storedPassword s)].

(** The body of [if (key) { ... }] in [main]. *)
Definition handle (key : Z) (s : lock_state) : lock_state * list call :=
  if mode s =? 0 then
    if key =? chr "A" then (begin_entry 1 s, [ClearDisplay])
    else (s, [])
  else if mode s =? 1 then
    if is_digit key then
      if index s <? MAX_PASSWORD_LENGTH then
        let s' := append_key key s in
        (s', [UpdateDisplay (enteredPassword s')])
      else (s, [])
    else if key =? chr "B" then
      if index s =? MAX_PASSWORD_LENGTH then
        let s' := save_pin s in
        (s', [UpdateDisplay (storedPassword s')])
      else (s, [])
    else (s, [])
  else if mode s =? 2 then
    if key =? chr "C" then (begin_entry 3 s, [ClearDisplay])
    else (s, [])
  else if mode s =? 3 then
    if is_digit key then
      if index s <? MAX_PASSWORD_LENGTH then
        let s' := append_key key s in
        (s', [UpdateDisplay (enteredPassword s')])
      else (s, [])
    else if key =? chr "D" then
      if index s =? MAX_PASSWORD_LENGTH then
        if strcmp (storedPassword s) (enteredPassword s) =? 0 then
          (set_mode 0 s, [UpdateDisplay (storedPassword s)])
        else
          (set_mode 2 s, [DisplayError; UpdateDisplay (storedPassword s)])
      else (s, [])
    else (s, [])
  else (s, []).

(** One turn of [while (1)]. *)
Definition loop_iteration (P2IN : Z) (st : Z * lock_state)
  : Z * lock_state * list hw_event :=
  let r := getKeypadInput P2IN st.1 in
  if returned r =? 0 then (lastKey' r, st.2, poll_trace r)
  else
    let '(s', calls) := handle (returned r) st.2 in
    (lastKey' r, s', poll_trace r ++ concat (exec <$> calls)).


(** [setupGPIO] of [main copy 2.c]: keypad pins as in [main.c]; P2.0 is the
    strobe output, low; P6.0-P6.3 carry the digit and P4.0-P4.1 select the
    position. *)
Definition setupGPIO : regs → regs :=
  seq_ops [reg_clear P2SEL keypad_mask;
           reg_clear P2DIR keypad_mask;
           reg_set P2REN keypad_mask;
           reg_set (OUT P2OUT) keypad_mask;
           reg_set P2DIR BIT0;
           reg_clear (OUT P2OUT) BIT0;
           reg_set P6DIR 0x0F;
           reg_write (OUT P6OUT) 0;
           reg_set P4DIR 0x03;
           reg_write (OUT P4OUT) 0].

(** [main] up to the loop, on the port registers. *)
Definition main_init (s : lock_state) (g : regs) : regs :=
  run_hw (concat (exec <$> startup s)) (setupGPIO g).

End SevenSeg.

(** Successive calls of a scanner on a list of samples of [P2IN]: the
    returned characters, in order. *)
Fixpoint poll_results (poll : Z → Z → poll_result) (samples : list Z) (lastKey : Z)
  : list Z :=
  match samples with
  | [] => []
  | p :: ps =>
      let r := poll p lastKey in
      returned r :: poll_results poll ps (lastKey' r)
  end.

(** Feeding a list of key events to a controller, one [handle] each: the final
    globals and all the output calls. *)
Fixpoint run_keys {C : Type} (handle : Z → lock_state → lock_state * list C)
    (keys : list Z) (s : lock_state) : lock_state * list C :=
  match keys with
  | [] => (s, [])
  | k :: ks =>
      let '(s1, out1) := handle k s in
      let '(s2, out2) := run_keys handle ks s1 in
      (s2, out1 ++ out2)
  end.

(** The states the controller can be in: the initial one and every one a key
    leads to. *)
Inductive reachable {C : Type} (handle : Z → lock_state → lock_state * list C)
  : lock_state → Prop :=
| reach_init : reachable handle initial_state
| reach_step key s : reachable handle s → reachable handle (handle key s).1.

(** Turns of [while (1)] on a list of samples of [P2IN], for the
    [loop_iteration] of either build: the final [lastKey] and globals, and
    the whole output trace. *)
Fixpoint run_loop (iter : Z → Z * lock_state → Z * lock_state * list hw_event)
    (samples : list Z) (st : Z * lock_state) : Z * lock_state * list hw_event :=
  match samples with
  | [] => (st, [])
  | p :: ps =>
      let '(st1, t1) := iter p st in
      let '(st2, t2) := run_loop iter ps st1 in
      (st2, t1 ++ t2)
  end.

(** ** The I2C transmit interrupt ([USCI_B1_ISR] of [main.c])

    [TXByteCtr] and [PTxData] are the two variables of the display library
    the handler uses; [PTxData] is modelled by the bytes from the pointer
    onwards (a read past them gives 0). *)
Module I2cIsr.

Record tx_state := TxState {
  TXByteCtr : Z;          (* unsigned char TXByteCtr *)
  PTxData : list Z;       (* unsigned char *PTxData *)
}.

Inductive tx_event :=
| LoadTXBUF (b : Z)       (* UCB1TXBUF = b *)
| SetUCTXSTP              (* UCB1CTL1 |= UCTXSTP *)
| ClearUCTXIFG            (* UCB1IFG &= ~UCTXIFG *)
| ExitLPM0.               (* __bic_SR_register_on_exit (LPM0_bits) *)

(** The handler, for the value read from [UCB1IV]. *)
Definition USCI_B1_ISR (UCB1IV : Z) (st : tx_state) : tx_state * list tx_event :=
  match UCB1IV with
  | 12 =>
      if TXByteCtr st =? 0 then (st, [SetUCTXSTP; ClearUCTXIFG; ExitLPM0])
      else
        (TxState (to_uchar (TXByteCtr st - 1)) (tail (PTxData st)),
         [LoadTXBUF (hd 0 (PTxData st))])
  | _ => (st, [])
  end.

(** Successive interrupts. *)
Fixpoint run_isr (vectors : list Z) (st : tx_state) : tx_state * list tx_event :=
  match vectors with
  | [] => (st, [])
  | v :: vs =>
      let '(st1, t1) := USCI_B1_ISR v st in
      let '(st2, t2) := run_isr vs st1 in
      (st2, t1 ++ t2)
  end.

End I2cIsr.

(** ** The input-line demo ([main copy.c]) *)
Module BcdDemo.

Definition input_mask : Z := Z.lor (Z.lor (Z.lor BIT2 BIT3) BIT4) BIT5.

(** [setupGPIO]: P1.2-P1.5 are inputs with pull-up resistors. *)
Definition setupGPIO : regs → regs :=
  seq_ops [reg_clear P1DIR input_mask;
           reg_set P1REN input_mask;
           reg_set (OUT P1OUT) input_mask].

Definition readBCDInput (P1IN : Z) : Z :=
  to_uchar (Z.shiftr (Z.land P1IN input_mask) 2).

Inductive demo_event :=
| ClearDisplay                          (* ssd1306_clearDisplay () *)
| PrintUI32 (x y val : Z)               (* ssd1306_printUI32 (x, y, val, HCENTERUL_ON) *)
| Delay (n : Z).                        (* __delay_cycles (n) *)

(** One turn of [while (1)] in [main]. *)
Definition loop_iteration (P1IN : Z) : list demo_event :=
  [ClearDisplay; PrintUI32 0 2 (readBCDInput P1IN); Delay 100000].

End BcdDemo.

(** ** The notions of the specification, read off the globals *)

(** EntryBuffer: the [index] characters typed so far. *)
Definition entry_buffer (s : lock_state) : list Z :=
  take (Z.to_nat (index s)) (enteredPassword s).

(** StoredPin: the four characters of [storedPassword]. *)
Definition stored_pin (s : lock_state) : list Z := take 4 (storedPassword s).

(** The four modes, with the numbers the code gives them ([int mode]:
    0 unlocked, 1 set PIN, 2 locked, 3 enter PIN). *)
Definition Unlocked : Z := 0.
Definition SettingPin : Z := 1.
Definition Locked : Z := 2.
Definition EnteringPin : Z := 3.

(** The transition table of the specification, written from its rows (mode,
    key, condition on the length of EntryBuffer) and not from the code:
    whether [key] matches a row for the current mode. *)
Definition matches_row (key : Z) (s : lock_state) : bool :=
  if mode s =? Unlocked then key =? chr "A"
  else if mode s =? SettingPin then
    (is_digit key && (Z.of_nat (length (entry_buffer s)) <? 4))
    || ((key =? chr "B") && (Z.of_nat (length (entry_buffer s)) =? 4))
  else if mode s =? Locked then key =? chr "C"
  else if mode s =? EnteringPin then
    (is_digit key && (Z.of_nat (length (entry_buffer s)) <? 4))
    || ((key =? chr "D") && (Z.of_nat (length (entry_buffer s)) =? 4))
  else false.

(** What the code keeps true of its globals: both arrays have their five
    cells, [storedPassword] holds four digits and a NUL, [index] is at most
    4, the first [index] cells of [enteredPassword] hold digits and the next
    one a NUL, and [mode] is one of the four values. *)
Record state_ok (s : lock_state) : Prop := StateOk {
  ok_stored_len : length (storedPassword s) = 5%nat;
  ok_stored_digits : Forall (λ c, is_digit c = true) (stored_pin s);
  ok_stored_nul : rd (storedPassword s) 4 = 0;
  ok_entered_len : length (enteredPassword s) = 5%nat;
  ok_index : 0 ≤ index s ≤ 4;
  ok_entered_digits : Forall (λ c, is_digit c = true) (entry_buffer s);
  ok_entered_nul : rd (enteredPassword s) (index s) = 0;
  ok_mode : 0 ≤ mode s ≤ 3;
}.

(** ** Sample states

    The globals at four points of the end-to-end scenario of the
    specification: four digits typed in Set-PIN mode over the default PIN;
    PIN "1234" stored and "9999" typed in Enter-PIN mode; the same with
    "1234" typed; and two digits typed in Set-PIN mode. *)
Definition setting_1234 : lock_state :=
  LockState (cstring "0000") (cstring "1234") 4 SettingPin.

Definition entering_9999 : lock_state :=
  LockState (cstring "1234") (cstring "9999") 4 EnteringPin.

Definition entering_1234 : lock_state :=
  LockState (cstring "1234") (cstring "1234") 4 EnteringPin.

Definition setting_12 : lock_state :=
  LockState (cstring "0000") [chr "1"; chr "2"; 0; 0; 0] 2 SettingPin.

(** ** Proof automation *)

(** Case analysis on a value known to lie in 0..15. *)
Ltac nibble_cases x :=
  let H := fresh "Hcase" in
  assert (x = 0 ∨ x = 1 ∨ x = 2 ∨ x = 3 ∨ x = 4 ∨ x = 5 ∨ x = 6 ∨ x = 7 ∨
          x = 8 ∨ x = 9 ∨ x = 10 ∨ x = 11 ∨ x = 12 ∨ x = 13 ∨ x = 14 ∨ x = 15)
    as H by lia;
  repeat (destruct H as [-> | H]); [.. | subst x].

(** Case analysis on a bit position of an 8-bit register. *)
Ltac bit_cases i :=
  let H := fresh "Hbit" in
  assert (i = 0 ∨ i = 1 ∨ i = 2 ∨ i = 3 ∨ i = 4 ∨ i = 5 ∨ i = 6 ∨ i = 7)
    as H by lia;
  repeat (destruct H as [-> | H]); [.. | subst i].

(** Boolean tests of the code, as propositions. *)
Ltac bool_hyps :=
  repeat match goal with
  | H : (_ =? _) = true |- _ => apply Z.eqb_eq in H
  | H : (_ =? _) = false |- _ => apply Z.eqb_neq in H
  | H : (_ <? _) = true |- _ => apply Z.ltb_lt in H
  | H : (_ <? _) = false |- _ => apply Z.ltb_ge in H
  end.

(** One goal for each path through [handle]. *)
Ltac handle_cases :=
  unfold Oled.handle, SevenSeg.handle, MAX_PASSWORD_LENGTH;
  repeat match goal with
  | |- context [if ?b then _ else _] => destruct b eqn:?
  end.

(** * Facts about the keypad scanner *)

Section Masking.

Lemma keypad_mask_shifted : keypad_mask = Z.shiftl 15 3.
Proof. reflexivity. Qed.

(** Masking with bits 3-6 keeps exactly the nibble that starts at bit 3. *)
Lemma masked_lines P2IN :
  Z.land P2IN keypad_mask = Z.shiftl (Z.land (Z.shiftr P2IN 3) 15) 3.
Proof.
  rewrite keypad_mask_shifted.
  apply Z.bits_inj'; intros n Hn.
  rewrite Z.land_spec, !Z.shiftl_spec by lia.
  destruct (Z.lt_ge_cases n 3) as [Hlt | Hge].
  - rewrite (Z.testbit_neg_r 15), (Z.testbit_neg_r (Z.land _ _)) by lia.
    apply andb_false_r.
  - rewrite Z.land_spec, Z.shiftr_spec by lia. do 2 f_equal. lia.
Qed.

Lemma nibble_range P2IN : 0 ≤ Z.land (Z.shiftr P2IN 3) 15 < 16.
Proof.
  change 15 with (Z.ones 4). rewrite Z.land_ones by lia.
  apply Z.mod_pos_bound. lia.
Qed.

(** [main.c] recovers the nibble. *)
Lemma oled_bcd_nibble P2IN : Oled.bcd P2IN = Z.land (Z.shiftr P2IN 3) 15.
Proof.
  unfold Oled.bcd, to_uchar. rewrite masked_lines.
  rewrite Z.shiftr_shiftl_l by lia. change (3 - 3) with 0.
  rewrite Z.shiftl_0_r. apply Z.mod_small.
  pose proof (nibble_range P2IN). lia.
Qed.

(** [main copy 2.c] gets twice the nibble. *)
Lemma sevenseg_bcd_double P2IN :
  SevenSeg.bcd P2IN = 2 * Z.land (Z.shiftr P2IN 3) 15.
Proof.
  unfold SevenSeg.bcd, to_uchar. rewrite masked_lines.
  rewrite Z.shiftr_shiftl_l by lia. change (3 - 2) with 1.
  rewrite Z.shiftl_mul_pow2 by lia. change (2 ^ 1) with 2.
  pose proof (nibble_range P2IN).
  rewrite Z.mod_small by lia. lia.
Qed.

End Masking.

Lemma keymap_unmapped c : ¬ (0 ≤ c ≤ 15) → keymap c = 0.
Proof.
  intros Hc. destruct c as [| p | p]; [lia | | reflexivity].
  assert (16 ≤ Z.pos p) as Hp by lia.
  do 4 (destruct p as [p | p |]; try (exfalso; lia)); reflexivity.
Qed.

Lemma keymap_mapped c : 0 ≤ c ≤ 15 → keymap c ≠ 0.
Proof. intros Hc. nibble_cases c; discriminate. Qed.

(** The OLED build always decodes one of the sixteen keys. *)
Lemma oled_decode_nonzero P2IN : keymap (Oled.bcd P2IN) ≠ 0.
Proof.
  rewrite oled_bcd_nibble. apply keymap_mapped.
  pose proof (nibble_range P2IN). lia.
Qed.

(** The same-key filter at the end of [getKeypadInput], for any decoder. *)
Section Debounce.

Variable poll : Z → Z → poll_result.
Variable decode : Z → Z.
Hypothesis poll_unfold : ∀ P2IN lastKey,
  poll P2IN lastKey =
    if decode P2IN =? lastKey then PollResult 0 lastKey []
    else PollResult (decode P2IN) (decode P2IN) [DelayCycles 200000].

Lemma poll_suppressed P2IN lastKey :
  decode P2IN = lastKey → returned (poll P2IN lastKey) = 0.
Proof. intros <-. rewrite poll_unfold, Z.eqb_refl. reflexivity. Qed.

Lemma poll_returned P2IN lastKey :
  decode P2IN ≠ lastKey → returned (poll P2IN lastKey) = decode P2IN.
Proof.
  intros Hne. rewrite poll_unfold.
  destruct (Z.eqb_spec (decode P2IN) lastKey); [contradiction | reflexivity].
Qed.

(** A key that was returned is the one retained. *)
Lemma poll_retains P2IN lastKey :
  returned (poll P2IN lastKey) ≠ 0 →
  lastKey' (poll P2IN lastKey) = returned (poll P2IN lastKey).
Proof.
  rewrite poll_unfold.
  destruct (Z.eqb_spec (decode P2IN) lastKey); simpl; congruence.
Qed.

(** The retained key is never returned by the next poll. *)
Lemma poll_not_retained P2IN lastKey :
  returned (poll P2IN lastKey) ≠ 0 → returned (poll P2IN lastKey) ≠ lastKey.
Proof.
  rewrite poll_unfold.
  destruct (Z.eqb_spec (decode P2IN) lastKey); simpl; congruence.
Qed.

Lemma poll_adjacent_distinct samples : ∀ lastKey (i : nat) k k',
  poll_results poll samples lastKey !! i = Some k →
  poll_results poll samples lastKey !! S i = Some k' →
  k ≠ 0 → k' ≠ 0 → k ≠ k'.
Proof.
  induction samples as [| p ps IH]; intros lastKey i k k' Hi HSi Hk Hk'.
  - discriminate.
  - destruct i as [| i]; simpl in Hi, HSi.
    + injection Hi as Hi. destruct ps as [| q qs]; [discriminate |].
      simpl in HSi. injection HSi as HSi. subst k k'.
      rewrite (poll_retains _ _ Hk) in Hk' |- *.
      intros Heq. apply (poll_not_retained _ _ Hk'). congruence.
    + eapply IH; eassumption.
Qed.

Lemma poll_same_key_silent P2IN n : ∀ lastKey,
  decode P2IN = lastKey →
  poll_results poll (replicate n P2IN) lastKey = replicate n 0.
Proof.
  induction n as [| n IH]; intros lastKey <-; [reflexivity |].
  simpl. rewrite poll_unfold, Z.eqb_refl. simpl.
  rewrite IH by reflexivity. reflexivity.
Qed.

Lemma poll_held P2IN lastKey n :
  decode P2IN ≠ lastKey →
  poll_results poll (replicate (S n) P2IN) lastKey = decode P2IN :: replicate n 0.
Proof.
  intros Hne. simpl. rewrite poll_unfold.
  destruct (Z.eqb_spec (decode P2IN) lastKey); [contradiction |]. simpl.
  rewrite poll_same_key_silent by reflexivity. reflexivity.
Qed.

End Debounce.

Lemma oled_poll_unfold P2IN lastKey :
  Oled.getKeypadInput P2IN lastKey =
    if keymap (Oled.bcd P2IN) =? lastKey then PollResult 0 lastKey []
    else PollResult (keymap (Oled.bcd P2IN)) (keymap (Oled.bcd P2IN))
                    [DelayCycles 200000].
Proof. reflexivity. Qed.

Lemma sevenseg_poll_unfold P2IN lastKey :
  SevenSeg.getKeypadInput P2IN lastKey =
    if keymap (SevenSeg.bcd P2IN) =? lastKey then PollResult 0 lastKey []
    else PollResult (keymap (SevenSeg.bcd P2IN)) (keymap (SevenSeg.bcd P2IN))
                    [DelayCycles 200000].
Proof. reflexivity. Qed.

Lemma idle_nibble P2IN : lines_idle P2IN → Z.land (Z.shiftr P2IN 3) 15 = 15.
Proof.
  unfold lines_idle. rewrite masked_lines, Z.shiftl_mul_pow2 by lia.
  change keypad_mask with 120. change (2 ^ 3) with 8. lia.
Qed.

(** ** Claims about the scanner *)

(** C6.  In both builds a poll returns 0 (no key) whenever the key it has
    just decoded is the one retained in [lastKey]; hence, over any sequence
    of polls started with any retained key, two polls in a row that both
    return a key return different keys (the same key is not returned again
    without a poll in between that returned no key), and a sample held for
    [S n] polls on a scanner whose retained key differs from it is answered
    by its key once, then by [n] times "no key". *)
Theorem scanner_reports_held_key_once
    (samples : list Z) (P2IN lastKey : Z) (i n : nat) (k k' : Z) :
  ((keymap (Oled.bcd P2IN) = lastKey →
    returned (Oled.getKeypadInput P2IN lastKey) = 0) ∧
   (poll_results Oled.getKeypadInput samples lastKey !! i = Some k →
    poll_results Oled.getKeypadInput samples lastKey !! S i = Some k' →
    k ≠ 0 → k' ≠ 0 → k ≠ k') ∧
   (keymap (Oled.bcd P2IN) ≠ lastKey →
    poll_results Oled.getKeypadInput (replicate (S n) P2IN) lastKey
      = keymap (Oled.bcd P2IN) :: replicate n 0)) ∧
  ((keymap (SevenSeg.bcd P2IN) = lastKey →
    returned (SevenSeg.getKeypadInput P2IN lastKey) = 0) ∧
   (poll_results SevenSeg.getKeypadInput samples lastKey !! i = Some k →
    poll_results SevenSeg.getKeypadInput samples lastKey !! S i = Some k' →
    k ≠ 0 → k' ≠ 0 → k ≠ k') ∧
   (keymap (SevenSeg.bcd P2IN) ≠ lastKey →
    poll_results SevenSeg.getKeypadInput (replicate (S n) P2IN) lastKey
      = keymap (SevenSeg.bcd P2IN) :: replicate n 0)).
Proof.
  split; (split; [| split]).
  - apply (poll_suppressed _ _ oled_poll_unfold).
  - apply (poll_adjacent_distinct _ _ oled_poll_unfold).
  - apply (poll_held _ _ oled_poll_unfold).
  - apply (poll_suppressed _ _ sevenseg_poll_unfold).
  - apply (poll_adjacent_distinct _ _ sevenseg_poll_unfold).
  - apply (poll_held _ _ sevenseg_poll_unfold).
Qed.

(** Key '1' (all four lines low) held for three polls after power-up; the
    same sample polled once more; and key '1' followed by the sample 0x08
    (key '2' in the OLED build). *)
Lemma scanner_reports_held_key_once_witness :
  poll_results Oled.getKeypadInput (replicate 3 0) 0 = [chr "1"; 0; 0] ∧
  poll_results SevenSeg.getKeypadInput (replicate 3 0) 0 = [chr "1"; 0; 0] ∧
  returned (Oled.getKeypadInput 0 (chr "1")) = 0 ∧
  returned (SevenSeg.getKeypadInput 0 (chr "1")) = 0 ∧
  poll_results Oled.getKeypadInput [0; 0x08] 0 = [chr "1"; chr "2"] ∧
  chr "1" ≠ chr "2".
Proof.
  pose proof (scanner_reports_held_key_once [] 0 0 0%nat 2%nat 0 0)
    as [(_ & _ & Ho) (_ & _ & Hs)].
  pose proof (scanner_reports_held_key_once [] 0 (chr "1") 0%nat 0%nat 0 0)
    as [(Ho1 & _ & _) (Hs1 & _ & _)].
  pose proof (scanner_reports_held_key_once [0; 0x08] 0 0 0%nat 0%nat
                (chr "1") (chr "2")) as [(_ & Hadj & _) _].
  split; [apply Ho; discriminate |].
  split; [apply Hs; discriminate |].
  split; [apply Ho1; reflexivity |].
  split; [apply Hs1; reflexivity |].
  split; [reflexivity |].
  apply Hadj; (reflexivity || discriminate).
Defined.

(** In the 7-segment build a poll that decodes an unmapped code resets the
    retained key, so the same key can be returned again after a poll that
    returned no key: '1', code 16, '1'. *)
Example sevenseg_same_key_after_none :
  poll_results SevenSeg.getKeypadInput [0; 0x40; 0] 0 = [chr "1"; 0; chr "1"].
Proof. reflexivity. Qed.

(** C7 (a defect of [main.c]).  In the OLED build a poll does not answer "no
    key" when no key is pressed.  The four pulled-up lines then read 1111,
    which [getKeypadInput] decodes as code 15, key 'D', and returns: on the
    first poll after power-up, and again after each release of a key.  So
    [main], which means to go on "only if valid keypress is received",
    handles a 'D' nobody pressed.  With the PIN "1234" stored and the lines at
    rest, 'C' and four times '9', each followed by a release, are polled as
    C D 9 D 9 D 9 D 9 D: before the last release the globals are in Enter-PIN
    mode with "9999" typed, and this release alone takes the wrong-PIN path
    (text, LED flashes, mode Locked) although the display asked to "press
    D". *)
Theorem oled_idle_lines_report_key :
  lines_idle 0x78 ∧
  Oled.getKeypadInput 0x78 0 = PollResult (chr "D") (chr "D") [DelayCycles 200000] ∧
  poll_results Oled.getKeypadInput
    [0x58; 0x78; 0x50; 0x78; 0x50; 0x78; 0x50; 0x78; 0x50; 0x78] (chr "D")
    = chr <$> ["C"; "D"; "9"; "D"; "9"; "D"; "9"; "D"; "9"; "D"]%char ∧
  (run_loop Oled.loop_iteration
     [0x58; 0x78; 0x50; 0x78; 0x50; 0x78; 0x50; 0x78; 0x50]
     (chr "D", LockState (cstring "1234") (cstring "1234") 4 Locked)).1
    = (chr "9", entering_9999) ∧
  Oled.loop_iteration 0x78 (chr "9", entering_9999) =
    (chr "D", set_mode Locked entering_9999,
     DelayCycles 200000 ::
       [Ssd1306ClearDisplay;
        Ssd1306PrintTextBlock 0 2 (cstring "Wrong PIN! Press C to try again ");
        DelayCycles 100000] ++
       concat (replicate 10 [PortToggle P1OUT BIT4; DelayCycles 3000000;
                             PortToggle P1OUT BIT4; DelayCycles 3000000]) ++
       [PortSet P1OUT BIT4; PortClear P1OUT BIT5]).
Proof. repeat split. Qed.

(** When a poll returns 0, in each build.  A code that the lookup table does
    not map decodes to 0 and the poll returns 0; in the 7-segment build this
    covers lines at rest.  In the OLED build every sample decodes to a mapped
    code, and a poll returns 0 exactly when the decoded key equals the
    retained one. *)
Theorem poll_none_cases (P2IN lastKey : Z) :
  (∀ code, ¬ (0 ≤ code ≤ 15) → keymap code = 0) ∧
  (¬ (0 ≤ SevenSeg.bcd P2IN ≤ 15) →
   returned (SevenSeg.getKeypadInput P2IN lastKey) = 0) ∧
  (0 ≤ Oled.bcd P2IN ≤ 15 ∧ keymap (Oled.bcd P2IN) ≠ 0) ∧
  (returned (Oled.getKeypadInput P2IN lastKey) = 0 ↔
   keymap (Oled.bcd P2IN) = lastKey) ∧
  (lines_idle P2IN →
   keymap (Oled.bcd P2IN) = chr "D" ∧
   returned (SevenSeg.getKeypadInput P2IN lastKey) = 0).
Proof.
  assert (∀ q, ¬ (0 ≤ SevenSeg.bcd P2IN ≤ 15) →
               returned (SevenSeg.getKeypadInput P2IN q) = 0) as Hunmapped.
  { intros q Hc. rewrite sevenseg_poll_unfold, (keymap_unmapped _ Hc).
    destruct (0 =? q); reflexivity. }
  split; [apply keymap_unmapped |].
  split; [apply Hunmapped |].
  split; [| split].
  - split; [| apply oled_decode_nonzero].
    rewrite oled_bcd_nibble. pose proof (nibble_range P2IN). lia.
  - split.
    + intros Hret. destruct (Z.eq_dec (keymap (Oled.bcd P2IN)) lastKey) as [| Hne];
        [assumption |].
      rewrite (poll_returned _ _ oled_poll_unfold _ _ Hne) in Hret.
      destruct (oled_decode_nonzero _ Hret).
    + apply (poll_suppressed _ _ oled_poll_unfold).
  - intros Hidle. split.
    + rewrite oled_bcd_nibble, (idle_nibble _ Hidle). reflexivity.
    + apply Hunmapped. rewrite sevenseg_bcd_double, (idle_nibble _ Hidle). lia.
Qed.

(** Idle lines, first poll after power-up. *)
Lemma poll_none_cases_witness :
  keymap 16 = 0 ∧
  returned (SevenSeg.getKeypadInput 0x78 0) = 0 ∧
  keymap (Oled.bcd 0x78) = chr "D".
Proof.
  pose proof (poll_none_cases 0x78 0) as (Htable & Hseg & _ & _ & Hidle).
  split; [apply Htable; lia |].
  split; [apply Hseg; vm_compute; intros [_ Hle]; apply Hle; reflexivity |].
  apply Hidle. reflexivity.
Defined.

(** C9.  In the 7-segment build the code switched on is always an even
    number between 0 and 30; no poll ever returns '0', '2', '5', '8', 'A',
    'B', 'C' or 'D'; and a code above 15 takes the [default] branch, so the
    poll returns 0 (no key). *)
Theorem sevenseg_shift_loses_keys (P2IN lastKey : Z) :
  (0 ≤ SevenSeg.bcd P2IN ≤ 30 ∧ Z.even (SevenSeg.bcd P2IN) = true) ∧
  Forall (λ c, returned (SevenSeg.getKeypadInput P2IN lastKey) ≠ chr c)
         ["0"; "2"; "5"; "8"; "A"; "B"; "C"; "D"]%char ∧
  (15 < SevenSeg.bcd P2IN →
   keymap (SevenSeg.bcd P2IN) = 0 ∧
   returned (SevenSeg.getKeypadInput P2IN lastKey) = 0).
Proof.
  rewrite sevenseg_poll_unfold, sevenseg_bcd_double.
  pose proof (nibble_range P2IN) as Hx.
  generalize dependent (Z.land (Z.shiftr P2IN 3) 15). intros x Hx.
  split; [| split].
  - split; [lia |]. rewrite Z.even_mul. reflexivity.
  - nibble_cases x;
      match goal with
      | |- context [keymap ?c] =>
          let v := eval vm_compute in (keymap c) in change (keymap c) with v
      end;
      match goal with
      | |- context [?a =? lastKey] => destruct (Z.eqb_spec a lastKey)
      end; simpl; repeat constructor; discriminate.
  - intros Hc. assert (keymap (2 * x) = 0) as -> by (apply keymap_unmapped; lia).
    split; [reflexivity |]. destruct (0 =? lastKey); reflexivity.
Qed.

(** Lines P2.6 high, the others low: code 16. *)
Lemma sevenseg_shift_loses_keys_witness :
  keymap (SevenSeg.bcd 0x40) = 0 ∧ returned (SevenSeg.getKeypadInput 0x40 0) = 0.
Proof.
  apply (sevenseg_shift_loses_keys 0x40 0). reflexivity.
Defined.

(** * Facts about the lock controller *)

(** ** C strings held in arrays *)

Lemma is_digit_range c : is_digit c = true ↔ 48 ≤ c ≤ 57.
Proof. unfold is_digit. change (chr "0") with 48. change (chr "9") with 57. lia. Qed.

Lemma digits_nonzero (l : list Z) :
  Forall (λ c, is_digit c = true) l → Forall (λ c, c ≠ 0) l.
Proof.
  intros Hl. eapply Forall_impl; [exact Hl |].
  intros c Hc%is_digit_range. lia.
Qed.

Lemma str_chars_terminated (buf rest : list Z) :
  Forall (λ c, c ≠ 0) buf → str_chars (buf ++ 0 :: rest) = buf.
Proof.
  induction 1 as [| c buf Hc _ IH]; [reflexivity |].
  simpl. destruct (Z.eqb_spec c 0); [contradiction |]. by rewrite IH.
Qed.

Lemma strlen_terminated (buf rest : list Z) :
  Forall (λ c, c ≠ 0) buf → strlen (buf ++ 0 :: rest) = Z.of_nat (length buf).
Proof.
  induction 1 as [| c buf Hc _ IH]; [reflexivity |].
  simpl strlen. destruct (Z.eqb_spec c 0); [contradiction |].
  rewrite IH. simpl length. lia.
Qed.

(** [strcmp] returns 0 exactly on equal strings. *)
Lemma strcmp_zero (a : list Z) : ∀ b, strcmp a b = 0 ↔ str_chars a = str_chars b.
Proof.
  induction a as [| x a IH]; intros [| y b]; simpl.
  - tauto.
  - destruct (Z.eqb_spec y 0); split; (lia || congruence).
  - destruct (Z.eqb_spec x 0); split; (lia || congruence).
  - destruct (Z.eqb_spec x y) as [-> | Hxy].
    + destruct (Z.eqb_spec y 0); [tauto |].
      rewrite IH. split; congruence.
    + destruct (Z.eqb_spec x 0), (Z.eqb_spec y 0); split; (lia || congruence).
Qed.

Lemma rd_lookup (a : list Z) (i : Z) :
  (Z.to_nat i < length a)%nat → a !! Z.to_nat i = Some (rd a i).
Proof.
  intros [x Hx]%lookup_lt_is_Some_2. unfold rd. by rewrite Hx.
Qed.

(** An array that holds a NUL at position [i]. *)
Lemma array_split (a : list Z) (i : Z) :
  (Z.to_nat i < length a)%nat → rd a i = 0 →
  a = take (Z.to_nat i) a ++ 0 :: drop (S (Z.to_nat i)) a.
Proof.
  intros Hi H0. symmetry. apply take_drop_middle.
  rewrite <- H0. by apply rd_lookup.
Qed.

(** ** Consequences of [state_ok] *)

Section StateOk.

Variable s : lock_state.
Hypothesis Hok : state_ok s.

Lemma buffer_length : Z.of_nat (length (entry_buffer s)) = index s.
Proof.
  destruct Hok. unfold entry_buffer. rewrite length_take_le; lia.
Qed.

Lemma stored_length : length (stored_pin s) = 4%nat.
Proof.
  destruct Hok. unfold stored_pin. rewrite length_take_le; lia.
Qed.

Lemma stored_split : storedPassword s = stored_pin s ++ [0].
Proof.
  destruct Hok. rewrite (array_split (storedPassword s) 4) at 1 by (simpl; lia || done).
  change (Z.to_nat 4) with 4%nat. fold (stored_pin s).
  by rewrite (drop_ge _ 5) by lia.
Qed.

Lemma entered_split :
  enteredPassword s =
    entry_buffer s ++ 0 :: drop (S (Z.to_nat (index s))) (enteredPassword s).
Proof.
  destruct Hok. apply array_split; [lia | done].
Qed.

Lemma stored_chars : str_chars (storedPassword s) = stored_pin s.
Proof.
  rewrite stored_split. apply str_chars_terminated, digits_nonzero.
  by destruct Hok.
Qed.

Lemma entered_chars : str_chars (enteredPassword s) = entry_buffer s.
Proof.
  rewrite entered_split. apply str_chars_terminated, digits_nonzero.
  by destruct Hok.
Qed.

(** The comparison made on 'D'. *)
Lemma strcmp_pin :
  strcmp (storedPassword s) (enteredPassword s) = 0 ↔ entry_buffer s = stored_pin s.
Proof.
  rewrite strcmp_zero, stored_chars, entered_chars. split; congruence.
Qed.

(** The copy made on 'B'. *)
Lemma strcpy_pin :
  index s = 4 →
  strcpy (storedPassword s) (enteredPassword s) = entry_buffer s ++ [0].
Proof.
  intros Hi. unfold strcpy. rewrite entered_chars.
  rewrite drop_ge; [by rewrite app_nil_r |].
  pose proof buffer_length. destruct Hok.
  rewrite length_app. simpl. lia.
Qed.

End StateOk.

(** ** The code keeps [state_ok] *)

Lemma initial_state_ok : state_ok initial_state.
Proof.
  split; try done; try (simpl; lia); repeat constructor.
Qed.

Lemma begin_entry_ok m s : 0 ≤ m ≤ 3 → state_ok s → state_ok (begin_entry m s).
Proof.
  intros Hm [].
  split; simpl; try done; try lia.
  rewrite length_drop. lia.
Qed.

Lemma begin_entry_buffer m s : entry_buffer (begin_entry m s) = [].
Proof. reflexivity. Qed.

Lemma set_mode_ok m s : 0 ≤ m ≤ 3 → state_ok s → state_ok (set_mode m s).
Proof. intros Hm []. by split. Qed.

Lemma append_key_buffer key s :
  state_ok s → index s < 4 →
  entry_buffer (append_key key s) = entry_buffer s ++ [key].
Proof.
  intros [] Hi. unfold entry_buffer, append_key, wr, to_uchar. simpl.
  rewrite Z.mod_small by lia.
  replace (Z.to_nat (index s + 1)) with (S (Z.to_nat (index s))) by lia.
  rewrite take_insert_ge by lia.
  rewrite (take_S_r _ _ key) by (apply list_lookup_insert_eq; lia).
  by rewrite take_insert_ge by lia.
Qed.

Lemma append_key_ok key s :
  state_ok s → is_digit key = true → index s < 4 → state_ok (append_key key s).
Proof.
  intros Hok Hkey Hi.
  pose proof (append_key_buffer key s Hok Hi) as Hbuf. destruct Hok.
  split; try done.
  - simpl. unfold wr. by rewrite !length_insert.
  - simpl. unfold to_uchar. rewrite Z.mod_small; lia.
  - rewrite Hbuf. apply Forall_app. split; [done | by constructor].
  - simpl. unfold rd, wr, to_uchar. rewrite Z.mod_small by lia.
    rewrite list_lookup_insert_eq; [done |]. rewrite length_insert. lia.
Qed.

Lemma save_pin_ok s : state_ok s → index s = 4 → state_ok (save_pin s).
Proof.
  intros Hok Hi. pose proof (strcpy_pin s Hok Hi) as Hcpy.
  pose proof (buffer_length s Hok) as Hlen. destruct Hok.
  split; simpl; try done; try lia.
  - rewrite Hcpy, length_app. simpl. lia.
  - unfold stored_pin. simpl. rewrite Hcpy, take_app_length' by lia. done.
  - rewrite Hcpy. unfold rd. rewrite lookup_app_r by (simpl; lia).
    replace (Z.to_nat 4 - length (entry_buffer s))%nat with 0%nat by lia. done.
Qed.

Lemma save_pin_stored s :
  state_ok s → index s = 4 → stored_pin (save_pin s) = entry_buffer s.
Proof.
  intros Hok Hi. unfold stored_pin. simpl. rewrite (strcpy_pin s Hok Hi).
  apply take_app_length'. pose proof (buffer_length s Hok). lia.
Qed.

(** ** [handle] keeps [state_ok] *)

Lemma oled_handle_ok key s : state_ok s → state_ok (Oled.handle key s).1.
Proof.
  intros Hok. handle_cases; bool_hyps; simpl;
    auto using begin_entry_ok, append_key_ok, save_pin_ok, set_mode_ok with lia.
Qed.

Lemma sevenseg_handle_ok key s : state_ok s → state_ok (SevenSeg.handle key s).1.
Proof.
  intros Hok. handle_cases; bool_hyps; simpl;
    auto using begin_entry_ok, append_key_ok, save_pin_ok, set_mode_ok with lia.
Qed.

(** The two builds make the same changes to the globals. *)
Lemma handle_state_agree key s : (Oled.handle key s).1 = (SevenSeg.handle key s).1.
Proof. handle_cases; reflexivity. Qed.

Lemma oled_reachable_ok s : reachable Oled.handle s → state_ok s.
Proof.
  induction 1; [apply initial_state_ok | by apply oled_handle_ok].
Qed.

Lemma sevenseg_reachable_ok s : reachable SevenSeg.handle s → state_ok s.
Proof.
  induction 1; [apply initial_state_ok | by apply sevenseg_handle_ok].
Qed.

(** Only the copy on 'B' writes [storedPassword]. *)
Lemma oled_stored_frame key s :
  state_ok s →
  ¬ (mode s = SettingPin ∧ key = chr "B" ∧ length (entry_buffer s) = 4%nat) →
  storedPassword (Oled.handle key s).1 = storedPassword s.
Proof.
  intros Hok Hnot. pose proof (buffer_length s Hok).
  handle_cases; bool_hyps; try reflexivity.
  exfalso. apply Hnot. unfold SettingPin. lia.
Qed.

Lemma run_keys_cons_state {C : Type}
    (handle : Z → lock_state → lock_state * list C) k ks s :
  (run_keys handle (k :: ks) s).1 = (run_keys handle ks (handle k s).1).1.
Proof.
  simpl. destruct (handle k s) as [s1 out1]. simpl.
  by destruct (run_keys handle ks s1).
Qed.

(** Digit entry, for any controller that treats digits as the two builds do. *)
Section DigitEntry.

Context {C : Type} (handle : Z → lock_state → lock_state * list C).

Hypothesis handle_digit_append : ∀ key s,
  mode s = SettingPin ∨ mode s = EnteringPin →
  is_digit key = true → index s < 4 →
  (handle key s).1 = append_key key s.

Hypothesis handle_digit_full : ∀ key s,
  mode s = SettingPin ∨ mode s = EnteringPin →
  is_digit key = true → 4 ≤ index s →
  handle key s = (s, []).

Lemma run_digits ds : ∀ s,
  state_ok s →
  mode s = SettingPin ∨ mode s = EnteringPin →
  Forall (λ c, is_digit c = true) ds →
  let s' := (run_keys handle ds s).1 in
  state_ok s' ∧ mode s' = mode s ∧ storedPassword s' = storedPassword s ∧
  entry_buffer s' = take 4 (entry_buffer s ++ ds).
Proof.
  induction ds as [| d ds IH]; intros s Hok Hmode Hds; cbv zeta.
  - pose proof (buffer_length s Hok). destruct Hok.
    simpl. rewrite app_nil_r, take_ge by lia. done.
  - rewrite run_keys_cons_state.
    apply Forall_cons in Hds as [Hd Hds].
    pose proof (buffer_length s Hok) as Hlen.
    destruct (Z.lt_ge_cases (index s) 4) as [Hlt | Hge].
    + rewrite (handle_digit_append d s Hmode Hd Hlt).
      destruct (IH (append_key d s)) as (Hok' & Hm' & Hst' & Hbuf'); try done.
      { by apply append_key_ok. }
      rewrite Hbuf', append_key_buffer, <- app_assoc by done. done.
    + rewrite (handle_digit_full d s Hmode Hd Hge). simpl.
      destruct (IH s) as (Hok' & Hm' & Hst' & Hbuf'); try done.
      rewrite Hbuf'. destruct Hok.
      by rewrite !take_app_length' by lia.
Qed.

End DigitEntry.

Lemma oled_digit_append key s :
  mode s = SettingPin ∨ mode s = EnteringPin →
  is_digit key = true → index s < 4 →
  (Oled.handle key s).1 = append_key key s.
Proof.
  unfold SettingPin, EnteringPin. intros Hm Hd Hi.
  handle_cases; bool_hyps; try reflexivity; try congruence; lia.
Qed.

Lemma oled_digit_full key s :
  mode s = SettingPin ∨ mode s = EnteringPin →
  is_digit key = true → 4 ≤ index s →
  Oled.handle key s = (s, []).
Proof.
  unfold SettingPin, EnteringPin. intros Hm Hd Hi.
  handle_cases; bool_hyps; try reflexivity; try congruence; lia.
Qed.

Lemma sevenseg_digit_append key s :
  mode s = SettingPin ∨ mode s = EnteringPin →
  is_digit key = true → index s < 4 →
  (SevenSeg.handle key s).1 = append_key key s.
Proof.
  unfold SettingPin, EnteringPin. intros Hm Hd Hi.
  handle_cases; bool_hyps; try reflexivity; try congruence; lia.
Qed.

Lemma sevenseg_digit_full key s :
  mode s = SettingPin ∨ mode s = EnteringPin →
  is_digit key = true → 4 ≤ index s →
  SevenSeg.handle key s = (s, []).
Proof.
  unfold SettingPin, EnteringPin. intros Hm Hd Hi.
  handle_cases; bool_hyps; try reflexivity; try congruence; lia.
Qed.

Lemma sevenseg_stored_frame key s :
  state_ok s →
  ¬ (mode s = SettingPin ∧ key = chr "B" ∧ length (entry_buffer s) = 4%nat) →
  storedPassword (SevenSeg.handle key s).1 = storedPassword s.
Proof. rewrite <- handle_state_agree. apply oled_stored_frame. Qed.

(** What 'D' does in Enter-PIN mode with four digits typed. *)
Lemma oled_handle_D s :
  mode s = EnteringPin → index s = 4 →
  Oled.handle (chr "D") s =
    if strcmp (storedPassword s) (enteredPassword s) =? 0 then
      (set_mode Unlocked s,
       [Oled.DisplayMessage (cstring "Unlocked. Press A to set PIN");
        Oled.SetLockedLEDOff; Oled.SetUnlockedLEDOn])
    else
      (set_mode Locked s,
       [Oled.DisplayMessage (cstring "Wrong PIN! Press C to try again");
        Oled.FlashLockedLED; Oled.SetLockedLEDOn; Oled.SetUnlockedLEDOff]).
Proof. intros Hm Hi. unfold Oled.handle. rewrite Hm, Hi. reflexivity. Qed.

Lemma sevenseg_handle_D s :
  mode s = EnteringPin → index s = 4 →
  SevenSeg.handle (chr "D") s =
    if strcmp (storedPassword s) (enteredPassword s) =? 0 then
      (set_mode Unlocked s, [SevenSeg.UpdateDisplay (storedPassword s)])
    else
      (set_mode Locked s,
       [SevenSeg.DisplayError; SevenSeg.UpdateDisplay (storedPassword s)]).
Proof. intros Hm Hi. unfold SevenSeg.handle. rewrite Hm, Hi. reflexivity. Qed.

Lemma full_buffer_index s :
  state_ok s → length (entry_buffer s) = 4%nat → index s = 4.
Proof. intros Hok Hlen. rewrite <- (buffer_length s Hok), Hlen. reflexivity. Qed.

Lemma strcmp_match s :
  state_ok s → entry_buffer s = stored_pin s →
  (strcmp (storedPassword s) (enteredPassword s) =? 0) = true.
Proof. intros Hok Heq. by apply Z.eqb_eq, strcmp_pin. Qed.

Lemma strcmp_mismatch s :
  state_ok s → entry_buffer s ≠ stored_pin s →
  (strcmp (storedPassword s) (enteredPassword s) =? 0) = false.
Proof. intros Hok Hne. apply Z.eqb_neq. by rewrite strcmp_pin. Qed.

Lemma setting_1234_ok : state_ok setting_1234.
Proof. split; simpl; try done; try lia; repeat constructor. Qed.

Lemma entering_9999_ok : state_ok entering_9999.
Proof. split; simpl; try done; try lia; repeat constructor. Qed.

Lemma entering_1234_ok : state_ok entering_1234.
Proof. split; simpl; try done; try lia; repeat constructor. Qed.

Lemma setting_12_ok : state_ok setting_12.
Proof. split; simpl; try done; try lia; repeat constructor. Qed.

(** ** Claims about the controller *)

(** C1.  In Enter-PIN mode with four digits typed, 'D' compares the buffer
    with the stored PIN.  When they are equal the mode becomes Unlocked and
    the unlocked indication is shown.  Otherwise the mode becomes Locked and
    the output consists of one failure indication (the "Wrong PIN!" text and
    one LED flash sequence in the OLED build, one error pattern in the
    7-segment build) followed by the locked indication (locked LED on and
    unlocked LED off, respectively the stored PIN on the display).  Nothing
    else changes. *)
Theorem confirm_entered_pin (s : lock_state) :
  state_ok s → mode s = EnteringPin → length (entry_buffer s) = 4%nat →
  (entry_buffer s = stored_pin s →
   Oled.handle (chr "D") s =
     (set_mode Unlocked s,
      [Oled.DisplayMessage (cstring "Unlocked. Press A to set PIN");
       Oled.SetLockedLEDOff; Oled.SetUnlockedLEDOn]) ∧
   SevenSeg.handle (chr "D") s =
     (set_mode Unlocked s, [SevenSeg.UpdateDisplay (storedPassword s)])) ∧
  (entry_buffer s ≠ stored_pin s →
   Oled.handle (chr "D") s =
     (set_mode Locked s,
      [Oled.DisplayMessage (cstring "Wrong PIN! Press C to try again");
       Oled.FlashLockedLED; Oled.SetLockedLEDOn; Oled.SetUnlockedLEDOff]) ∧
   SevenSeg.handle (chr "D") s =
     (set_mode Locked s,
      [SevenSeg.DisplayError; SevenSeg.UpdateDisplay (storedPassword s)])).
Proof.
  intros Hok Hm Hlen. pose proof (full_buffer_index s Hok Hlen) as Hi.
  rewrite (oled_handle_D s Hm Hi), (sevenseg_handle_D s Hm Hi).
  split; intros Hcmp.
  - by rewrite (strcmp_match s Hok Hcmp).
  - by rewrite (strcmp_mismatch s Hok Hcmp).
Qed.

Lemma confirm_entered_pin_witness :
  mode (Oled.handle (chr "D") entering_1234).1 = Unlocked ∧
  mode (SevenSeg.handle (chr "D") entering_9999).1 = Locked ∧
  (SevenSeg.handle (chr "D") entering_9999).2 =
    [SevenSeg.DisplayError; SevenSeg.UpdateDisplay (cstring "1234")].
Proof.
  destruct (confirm_entered_pin entering_1234 entering_1234_ok eq_refl eq_refl)
    as [Hmatch _].
  destruct (confirm_entered_pin entering_9999 entering_9999_ok eq_refl eq_refl)
    as [_ Hwrong].
  destruct (Hmatch eq_refl) as [-> _].
  destruct Hwrong as [_ ->]; [discriminate |].
  repeat split.
Defined.

(** C2.  In Set-PIN mode with four digits typed, 'B' makes the stored PIN
    equal to the buffer, whatever it was before, and the mode Locked. *)
Theorem confirm_new_pin (s : lock_state) :
  state_ok s → mode s = SettingPin → length (entry_buffer s) = 4%nat →
  (stored_pin (Oled.handle (chr "B") s).1 = entry_buffer s ∧
   storedPassword (Oled.handle (chr "B") s).1 = entry_buffer s ++ [0] ∧
   mode (Oled.handle (chr "B") s).1 = Locked) ∧
  (stored_pin (SevenSeg.handle (chr "B") s).1 = entry_buffer s ∧
   storedPassword (SevenSeg.handle (chr "B") s).1 = entry_buffer s ++ [0] ∧
   mode (SevenSeg.handle (chr "B") s).1 = Locked).
Proof.
  intros Hok Hm Hlen. pose proof (full_buffer_index s Hok Hlen) as Hi.
  rewrite <- handle_state_agree.
  assert ((Oled.handle (chr "B") s).1 = save_pin s) as ->.
  { unfold Oled.handle. rewrite Hm, Hi. reflexivity. }
  pose proof (save_pin_stored s Hok Hi). pose proof (strcpy_pin s Hok Hi).
  done.
Qed.

Lemma confirm_new_pin_witness :
  stored_pin (Oled.handle (chr "B") setting_1234).1 = take 4 (cstring "1234") ∧
  stored_pin setting_1234 = take 4 (cstring "0000") ∧
  mode (SevenSeg.handle (chr "B") setting_1234).1 = Locked.
Proof.
  destruct (confirm_new_pin setting_1234 setting_1234_ok eq_refl eq_refl)
    as [(Hpin & _ & _) (_ & _ & Hmode)].
  split; [exact Hpin | split; [reflexivity | exact Hmode]].
Defined.

(** C3.  From an empty buffer in Set-PIN or Enter-PIN mode, after any
    sequence [ds] of digit keys the buffer holds the first [min n 4] of them
    in order ([n] the length of [ds]); it is never longer than 4; and once
    four digits have arrived a further digit key changes nothing and produces
    no output. *)
Theorem digits_fill_buffer (s : lock_state) (ds : list Z) (d : Z) :
  state_ok s →
  mode s = SettingPin ∨ mode s = EnteringPin →
  entry_buffer s = [] →
  Forall (λ c, is_digit c = true) ds →
  (let s' := (run_keys Oled.handle ds s).1 in
   entry_buffer s' = take (min (length ds) 4) ds ∧
   (length (entry_buffer s') ≤ 4)%nat ∧
   mode s' = mode s ∧
   ((4 ≤ length ds)%nat → is_digit d = true → Oled.handle d s' = (s', []))) ∧
  (let s' := (run_keys SevenSeg.handle ds s).1 in
   entry_buffer s' = take (min (length ds) 4) ds ∧
   (length (entry_buffer s') ≤ 4)%nat ∧
   mode s' = mode s ∧
   ((4 ≤ length ds)%nat → is_digit d = true → SevenSeg.handle d s' = (s', []))).
Proof.
  intros Hok Hmode Hempty Hds.
  assert (take 4 ds = take (min (length ds) 4) ds) as Htake.
  { destruct (Nat.le_ge_cases (length ds) 4) as [Hle | Hge].
    - rewrite Nat.min_l, !take_ge by lia. done.
    - by rewrite Nat.min_r by lia. }
  pose proof (run_digits Oled.handle oled_digit_append oled_digit_full
                ds s Hok Hmode Hds) as (Hok1 & Hm1 & _ & Hbuf1).
  pose proof (run_digits SevenSeg.handle sevenseg_digit_append sevenseg_digit_full
                ds s Hok Hmode Hds) as (Hok2 & Hm2 & _ & Hbuf2).
  rewrite Hempty in Hbuf1, Hbuf2. simpl in Hbuf1, Hbuf2. cbv zeta.
  rewrite Hbuf1, Hbuf2, <- Htake, length_take.
  split; (split; [done | split; [lia | split; [done |]]]); intros Hfull Hd.
  - apply oled_digit_full; [congruence | done |].
    rewrite <- (buffer_length _ Hok1), Hbuf1, length_take. lia.
  - apply sevenseg_digit_full; [congruence | done |].
    rewrite <- (buffer_length _ Hok2), Hbuf2, length_take. lia.
Qed.

(** Six digits typed after 'A' on the initial state. *)
Lemma digits_fill_buffer_witness :
  let s := (Oled.handle (chr "A") initial_state).1 in
  let ds := chr <$> ["1"; "2"; "3"; "4"; "5"; "6"]%char in
  entry_buffer (run_keys Oled.handle ds s).1 = chr <$> ["1"; "2"; "3"; "4"]%char ∧
  entry_buffer (run_keys SevenSeg.handle ds s).1 = chr <$> ["1"; "2"; "3"; "4"]%char ∧
  Oled.handle (chr "7") (run_keys Oled.handle ds s).1
    = ((run_keys Oled.handle ds s).1, []) ∧
  SevenSeg.handle (chr "7") (run_keys SevenSeg.handle ds s).1
    = ((run_keys SevenSeg.handle ds s).1, []).
Proof.
  intros s ds.
  assert (state_ok s) as Hok by (apply oled_handle_ok, initial_state_ok).
  assert (Forall (λ c, is_digit c = true) ds) as Hds by (repeat constructor).
  destruct (digits_fill_buffer s ds (chr "7") Hok (or_introl eq_refl) eq_refl Hds)
    as [(Ho & _ & _ & Ho') (Hs & _ & _ & Hs')].
  split; [exact Ho |]. split; [exact Hs |].
  split; [apply Ho' | apply Hs']; (reflexivity || (simpl; lia)).
Defined.

Lemma unmatched_noop key s :
  state_ok s → matches_row key s = false →
  Oled.handle key s = (s, []) ∧ SevenSeg.handle key s = (s, []).
Proof.
  intros Hok. unfold matches_row. rewrite (buffer_length s Hok).
  unfold Unlocked, SettingPin, Locked, EnteringPin.
  handle_cases; simpl; intros Hrow; try discriminate; done.
Qed.

Lemma star_hash_unmatched key s :
  key = chr "*" ∨ key = chr "#" → matches_row key s = false.
Proof.
  unfold matches_row.
  intros [-> | ->];
    destruct (mode s =? Unlocked), (mode s =? SettingPin), (mode s =? Locked),
      (mode s =? EnteringPin); reflexivity.
Qed.

Lemma early_confirm_unmatched key s :
  key = chr "B" ∨ key = chr "D" → (length (entry_buffer s) < 4)%nat →
  matches_row key s = false.
Proof.
  unfold matches_row. intros Hkey Hlen.
  destruct (Z.eqb_spec (Z.of_nat (length (entry_buffer s))) 4) as [Heq | _]; [lia |].
  destruct Hkey as [-> | ->];
    destruct (mode s =? Unlocked), (mode s =? SettingPin), (mode s =? Locked),
      (mode s =? EnteringPin); try reflexivity;
    destruct (Z.of_nat (length (entry_buffer s)) <? 4); reflexivity.
Qed.

(** C4.  A key that matches no row of the transition table for the current
    mode, in particular '*' and '#' in any mode and 'B' or 'D' while fewer
    than four digits are typed, leaves all the globals as they are and makes
    no output call. *)
Theorem unmatched_key_is_dropped (key : Z) (s : lock_state) :
  state_ok s →
  matches_row key s = false ∨ key = chr "*" ∨ key = chr "#" ∨
    ((key = chr "B" ∨ key = chr "D") ∧ (length (entry_buffer s) < 4)%nat) →
  Oled.handle key s = (s, []) ∧ SevenSeg.handle key s = (s, []).
Proof.
  intros Hok Hkey. apply unmatched_noop; [done |].
  destruct Hkey as [Hrow | [Hstar | [Hhash | [Hconf Hlen]]]].
  - done.
  - apply star_hash_unmatched. by left.
  - apply star_hash_unmatched. by right.
  - by apply early_confirm_unmatched.
Qed.

Lemma unmatched_key_is_dropped_witness :
  Oled.handle (chr "B") setting_12 = (setting_12, []) ∧
  SevenSeg.handle (chr "#") entering_9999 = (entering_9999, []) ∧
  Oled.handle (chr "7") initial_state = (initial_state, []).
Proof.
  split; [| split].
  - apply (unmatched_key_is_dropped (chr "B") setting_12 setting_12_ok).
    right; right; right. split; [by left | simpl; lia].
  - apply (unmatched_key_is_dropped (chr "#") entering_9999 entering_9999_ok).
    right; right; left. reflexivity.
  - apply (unmatched_key_is_dropped (chr "7") initial_state initial_state_ok).
    left. reflexivity.
Defined.

(** C5.  In every state reachable from the initial one, in either build,
    [storedPassword] holds exactly four decimal digits and the NUL; and a key
    other than 'B' pressed in Set-PIN mode with four digits typed leaves
    [storedPassword] as it is. *)
Theorem stored_pin_invariant (s : lock_state) (key : Z) :
  (reachable Oled.handle s →
   (length (stored_pin s) = 4%nat ∧
    Forall (λ c, is_digit c = true) (stored_pin s) ∧
    storedPassword s = stored_pin s ++ [0]) ∧
   (¬ (mode s = SettingPin ∧ key = chr "B" ∧ length (entry_buffer s) = 4%nat) →
    storedPassword (Oled.handle key s).1 = storedPassword s)) ∧
  (reachable SevenSeg.handle s →
   (length (stored_pin s) = 4%nat ∧
    Forall (λ c, is_digit c = true) (stored_pin s) ∧
    storedPassword s = stored_pin s ++ [0]) ∧
   (¬ (mode s = SettingPin ∧ key = chr "B" ∧ length (entry_buffer s) = 4%nat) →
    storedPassword (SevenSeg.handle key s).1 = storedPassword s)).
Proof.
  assert (state_ok s →
          length (stored_pin s) = 4%nat ∧
          Forall (λ c, is_digit c = true) (stored_pin s) ∧
          storedPassword s = stored_pin s ++ [0]) as Hpin.
  { intros Hok. split; [by apply stored_length |].
    split; [by destruct Hok | by apply stored_split]. }
  split; intros Hreach.
  - apply oled_reachable_ok in Hreach.
    split; [by apply Hpin | by apply oled_stored_frame].
  - apply sevenseg_reachable_ok in Hreach.
    split; [by apply Hpin | by apply sevenseg_stored_frame].
Qed.

(** After 'A', '1': the PIN is still the default one, and 'B' does not
    touch it. *)
Lemma stored_pin_invariant_witness :
  let s := (SevenSeg.handle (chr "1")
              (SevenSeg.handle (chr "A") initial_state).1).1 in
  let t := (Oled.handle (chr "1") (Oled.handle (chr "A") initial_state).1).1 in
  stored_pin s = take 4 (cstring "0000") ∧
  storedPassword (SevenSeg.handle (chr "B") s).1 = storedPassword s ∧
  storedPassword (Oled.handle (chr "B") t).1 = storedPassword t.
Proof.
  intros s t.
  assert (reachable SevenSeg.handle s) as Hs.
  { do 2 apply reach_step. apply reach_init. }
  assert (reachable Oled.handle t) as Ht.
  { do 2 apply reach_step. apply reach_init. }
  destruct (stored_pin_invariant s (chr "B")) as [_ Hseg].
  destruct (stored_pin_invariant t (chr "B")) as [Holed _].
  destruct (Hseg Hs) as [_ Hframe]. destruct (Holed Ht) as [_ Hframe'].
  split; [reflexivity |].
  split; [apply Hframe | apply Hframe']; intros (_ & _ & Hlen); discriminate Hlen.
Defined.

(** ** What the 7-segment display shows for a PIN *)

Lemma digitVal_digit c : is_digit c = true → SevenSeg.digitVal c = c - chr "0".
Proof. unfold is_digit, SevenSeg.digitVal. by intros ->. Qed.

(** A stored PIN is displayed as it is: no position is padded. *)
Lemma display_stored s :
  state_ok s → SevenSeg.displayBuffer (storedPassword s) = storedPassword s.
Proof.
  intros Hok. pose proof (stored_length s Hok) as Hlen.
  pose proof (digits_nonzero _ (ok_stored_digits s Hok)) as Hnz.
  rewrite (stored_split s Hok).
  destruct (stored_pin s) as [| a [| b [| c [| d [| ? ?]]]]]; try discriminate Hlen.
  unfold SevenSeg.displayBuffer. rewrite strlen_terminated by done. reflexivity.
Qed.

(** The port writes of [updateDisplay (storedPassword)]: each digit of the
    PIN goes to P6OUT. *)
Lemma updateDisplay_stored s :
  state_ok s →
  SevenSeg.updateDisplay (storedPassword s) =
    concat ((λ i, [PortWrite P4OUT i;
                   PortWrite P6OUT (rd (stored_pin s) i - chr "0");
                   DelayCycles 50000]) <$> seqZ 0 4)
    ++ [PortSet P2OUT BIT0; DelayCycles 50000; PortClear P2OUT BIT0].
Proof.
  intros Hok. pose proof (stored_length s Hok) as Hlen.
  pose proof (ok_stored_digits s Hok) as Hdig.
  unfold SevenSeg.updateDisplay. rewrite (display_stored s Hok), (stored_split s Hok).
  destruct (stored_pin s) as [| a [| b [| c [| d [| ? ?]]]]]; try discriminate Hlen.
  apply Forall_cons in Hdig as [Ha Hdig]. apply Forall_cons in Hdig as [Hb Hdig].
  apply Forall_cons in Hdig as [Hc Hdig]. apply Forall_cons in Hdig as [Hd _].
  change (seqZ 0 4) with [0; 1; 2; 3]. cbn [fmap list_fmap concat app].
  change (rd ([a; b; c; d] ++ [0]) 0) with a. change (rd [a; b; c; d] 0) with a.
  change (rd ([a; b; c; d] ++ [0]) 1) with b. change (rd [a; b; c; d] 1) with b.
  change (rd ([a; b; c; d] ++ [0]) 2) with c. change (rd [a; b; c; d] 2) with c.
  change (rd ([a; b; c; d] ++ [0]) 3) with d. change (rd [a; b; c; d] 3) with d.
  by rewrite !digitVal_digit.
Qed.

Lemma stored_digit_range s i :
  state_ok s → 0 ≤ i ≤ 3 → 0 ≤ rd (stored_pin s) i - chr "0" ≤ 9.
Proof.
  intros Hok Hi. pose proof (stored_length s Hok) as Hlen.
  pose proof (ok_stored_digits s Hok) as Hdig.
  destruct (stored_pin s) as [| a [| b [| c [| d [| ? ?]]]]]; try discriminate Hlen.
  apply Forall_cons in Hdig as [Ha%is_digit_range Hdig].
  apply Forall_cons in Hdig as [Hb%is_digit_range Hdig].
  apply Forall_cons in Hdig as [Hc%is_digit_range Hdig].
  apply Forall_cons in Hdig as [Hd%is_digit_range _].
  change (chr "0") with 48.
  assert (i = 0 ∨ i = 1 ∨ i = 2 ∨ i = 3) as Hcase by lia.
  destruct Hcase as [-> | [-> | [-> | ->]]];
    [change (rd [a; b; c; d] 0) with a | change (rd [a; b; c; d] 1) with b
    | change (rd [a; b; c; d] 2) with c | change (rd [a; b; c; d] 3) with d]; lia.
Qed.

(** C8.  When 'D' is pressed in Enter-PIN mode with four digits typed that
    are not the stored PIN, the one call of [handle] puts out, entry by
    entry: the failure indication, the busy-wait that holds it, and then at
    once the locked indication.

    7-segment build: the digit 8 is written to each of the four positions
    and latched by a strobe pulse; [__delay_cycles (200000)] holds it; then
    the four digits of the stored PIN (each between 0 and 9) are written to
    the four positions and latched.

    OLED build: the display is cleared and the text "Wrong PIN! Press C to
    try again " printed; the locked LED is toggled twenty times, each state
    held for 3000000 cycles; then the locked LED is switched on and the
    unlocked LED off.

    In a turn of the main loop of the OLED build this output follows the
    debounce delay of the single poll that returned 'D': no other poll takes
    place inside it. *)
Theorem wrong_pin_trace (s : lock_state) (P2IN lastKey : Z) :
  state_ok s → mode s = EnteringPin → length (entry_buffer s) = 4%nat →
  entry_buffer s ≠ stored_pin s →
  let pin i := rd (stored_pin s) i - chr "0" in
  let oled_trace :=
    [Ssd1306ClearDisplay;
     Ssd1306PrintTextBlock 0 2 (cstring "Wrong PIN! Press C to try again ");
     DelayCycles 100000] ++
    concat (replicate 10 [PortToggle P1OUT BIT4; DelayCycles 3000000;
                          PortToggle P1OUT BIT4; DelayCycles 3000000]) ++
    [PortSet P1OUT BIT4; PortClear P1OUT BIT5] in
  concat (SevenSeg.exec <$> (SevenSeg.handle (chr "D") s).2) =
    [PortWrite P4OUT 0; PortWrite P6OUT 8; DelayCycles 50000;
     PortWrite P4OUT 1; PortWrite P6OUT 8; DelayCycles 50000;
     PortWrite P4OUT 2; PortWrite P6OUT 8; DelayCycles 50000;
     PortWrite P4OUT 3; PortWrite P6OUT 8; DelayCycles 50000;
     PortSet P2OUT BIT0; DelayCycles 50000; PortClear P2OUT BIT0;
     DelayCycles 200000;
     PortWrite P4OUT 0; PortWrite P6OUT (pin 0); DelayCycles 50000;
     PortWrite P4OUT 1; PortWrite P6OUT (pin 1); DelayCycles 50000;
     PortWrite P4OUT 2; PortWrite P6OUT (pin 2); DelayCycles 50000;
     PortWrite P4OUT 3; PortWrite P6OUT (pin 3); DelayCycles 50000;
     PortSet P2OUT BIT0; DelayCycles 50000; PortClear P2OUT BIT0] ∧
  (∀ i, 0 ≤ i ≤ 3 → 0 ≤ pin i ≤ 9) ∧
  concat (Oled.exec <$> (Oled.handle (chr "D") s).2) = oled_trace ∧
  (returned (Oled.getKeypadInput P2IN lastKey) = chr "D" →
   Oled.loop_iteration P2IN (lastKey, s) =
     (chr "D", set_mode Locked s, DelayCycles 200000 :: oled_trace)).
Proof.
  intros Hok Hm Hlen Hne pin oled_trace.
  pose proof (full_buffer_index s Hok Hlen) as Hi.
  pose proof (oled_handle_D s Hm Hi) as Ho.
  pose proof (sevenseg_handle_D s Hm Hi) as Hs.
  rewrite (strcmp_mismatch s Hok Hne) in Ho, Hs.
  split; [| split; [| split]].
  - rewrite Hs. cbn [snd fmap list_fmap concat SevenSeg.exec].
    unfold SevenSeg.displayError. rewrite (updateDisplay_stored s Hok).
    change (seqZ 0 4) with [0; 1; 2; 3]. reflexivity.
  - intros i Hi'. by apply stored_digit_range.
  - rewrite Ho. reflexivity.
  - intros Hret. unfold Oled.loop_iteration. cbn [fst snd].
    assert (Oled.getKeypadInput P2IN lastKey
            = PollResult (chr "D") (chr "D") [DelayCycles 200000]) as ->.
    { revert Hret. rewrite oled_poll_unfold.
      destruct (keymap (Oled.bcd P2IN) =? lastKey); simpl; [discriminate |].
      by intros ->. }
    cbn [returned lastKey' poll_trace]. change (chr "D" =? 0) with false.
    cbv iota. rewrite Ho. reflexivity.
Qed.

(** "9999" typed against the PIN "1234"; the lines read 1111 ('D') after a
    poll that had returned '9'. *)
Lemma wrong_pin_trace_witness :
  concat (SevenSeg.exec <$> (SevenSeg.handle (chr "D") entering_9999).2) =
    [PortWrite P4OUT 0; PortWrite P6OUT 8; DelayCycles 50000;
     PortWrite P4OUT 1; PortWrite P6OUT 8; DelayCycles 50000;
     PortWrite P4OUT 2; PortWrite P6OUT 8; DelayCycles 50000;
     PortWrite P4OUT 3; PortWrite P6OUT 8; DelayCycles 50000;
     PortSet P2OUT BIT0; DelayCycles 50000; PortClear P2OUT BIT0;
     DelayCycles 200000;
     PortWrite P4OUT 0; PortWrite P6OUT 1; DelayCycles 50000;
     PortWrite P4OUT 1; PortWrite P6OUT 2; DelayCycles 50000;
     PortWrite P4OUT 2; PortWrite P6OUT 3; DelayCycles 50000;
     PortWrite P4OUT 3; PortWrite P6OUT 4; DelayCycles 50000;
     PortSet P2OUT BIT0; DelayCycles 50000; PortClear P2OUT BIT0] ∧
  (Oled.loop_iteration 0x78 (chr "9", entering_9999)).1.2 = set_mode Locked entering_9999.
Proof.
  destruct (wrong_pin_trace entering_9999 0x78 (chr "9") entering_9999_ok
              eq_refl eq_refl) as (Hseg & _ & _ & Hloop); [discriminate |].
  split; [exact Hseg |]. by rewrite Hloop.
Defined.

(** C10.  In the 7-segment build [main] starts by displaying the stored PIN,
    and every call of [handle] that changes the mode to Locked or to Unlocked
    ends with [updateDisplay (storedPassword)]: the four digits of the PIN
    now stored are what the display is left showing, each written to P6OUT. *)
Theorem sevenseg_shows_stored_pin (key : Z) (s : lock_state) :
  state_ok s →
  SevenSeg.startup s = [SevenSeg.UpdateDisplay (storedPassword s)] ∧
  (let s' := (SevenSeg.handle key s).1 in
   mode s' ≠ mode s → mode s' = Locked ∨ mode s' = Unlocked →
   last (SevenSeg.handle key s).2 = Some (SevenSeg.UpdateDisplay (storedPassword s')) ∧
   SevenSeg.displayBuffer (storedPassword s') = stored_pin s' ++ [0] ∧
   SevenSeg.updateDisplay (storedPassword s') =
     concat ((λ i, [PortWrite P4OUT i;
                    PortWrite P6OUT (rd (stored_pin s') i - chr "0");
                    DelayCycles 50000]) <$> seqZ 0 4)
     ++ [PortSet P2OUT BIT0; DelayCycles 50000; PortClear P2OUT BIT0]).
Proof.
  intros Hok. split; [reflexivity |]. cbv zeta.
  pose proof (sevenseg_handle_ok key s Hok) as Hok'.
  rewrite (display_stored _ Hok'), <- (stored_split _ Hok').
  rewrite (updateDisplay_stored _ Hok').
  intros Hchange Hinto. split; [| done].
  revert Hchange Hinto. unfold Locked, Unlocked.
  handle_cases; bool_hyps; simpl; intros Hchange Hinto;
    try reflexivity; try congruence; lia.
Qed.

(** 'B' on "1234" typed in Set-PIN mode, and 'D' on a wrong entry: the
    display ends up showing the PIN "1234". *)
Lemma sevenseg_shows_stored_pin_witness :
  last (SevenSeg.handle (chr "B") setting_1234).2 =
    Some (SevenSeg.UpdateDisplay (cstring "1234")) ∧
  last (SevenSeg.handle (chr "D") entering_9999).2 =
    Some (SevenSeg.UpdateDisplay (cstring "1234")) ∧
  SevenSeg.displayBuffer (cstring "1234") = cstring "1234".
Proof.
  destruct (sevenseg_shows_stored_pin (chr "B") setting_1234 setting_1234_ok)
    as [_ HB].
  destruct (sevenseg_shows_stored_pin (chr "D") entering_9999 entering_9999_ok)
    as [_ HD].
  destruct HB as (HB1 & HB2 & _); [discriminate | by left |].
  destruct HD as (HD1 & _ & _); [discriminate | by left |].
  split; [exact HB1 | split; [exact HD1 | exact HB2]].
Defined.

(** * The end-to-end scenario of the specification

    'A', "1234", 'B', 'C', "9999", 'D' (wrong PIN), 'C', "1234", 'D', from
    the initial state. *)

Example scenario_set_pin :
  (run_keys SevenSeg.handle (chr <$> ["A"; "1"; "2"; "3"; "4"; "B"]%char)
     initial_state).1
  = LockState (cstring "1234") (cstring "1234") 4 Locked.
Proof. reflexivity. Qed.

Example scenario_wrong_pin :
  run_keys SevenSeg.handle (chr <$> ["C"; "9"; "9"; "9"; "9"; "D"]%char)
    (LockState (cstring "1234") (cstring "1234") 4 Locked)
  = (LockState (cstring "1234") (cstring "9999") 4 Locked,
     [SevenSeg.ClearDisplay;
      SevenSeg.UpdateDisplay [chr "9"; 0; 0; 0; 0];
      SevenSeg.UpdateDisplay [chr "9"; chr "9"; 0; 0; 0];
      SevenSeg.UpdateDisplay [chr "9"; chr "9"; chr "9"; 0; 0];
      SevenSeg.UpdateDisplay (cstring "9999");
      SevenSeg.DisplayError;
      SevenSeg.UpdateDisplay (cstring "1234")]).
Proof. reflexivity. Qed.

Example scenario_right_pin :
  (run_keys Oled.handle (chr <$> ["C"; "1"; "2"; "3"; "4"; "D"]%char)
     (LockState (cstring "1234") (cstring "9999") 4 Locked)).1
  = LockState (cstring "1234") (cstring "1234") 4 Unlocked.
Proof. reflexivity. Qed.

(** The same keys through the scanner of the OLED build: the codes of 'C',
    '1', '2', '3', '4', 'D' on P2.3-P2.6, each held for two polls. *)
Example scenario_through_scanner :
  fold_left (λ st P2IN, (Oled.loop_iteration P2IN st).1)
    ((λ code, code * 8) <$> [11; 11; 0; 0; 1; 1; 2; 2; 4; 4; 15; 15])
    (0, LockState (cstring "1234") (cstring "9999") 4 Locked)
  = (chr "D", LockState (cstring "1234") (cstring "1234") 4 Unlocked).
Proof. reflexivity. Qed.

(** * Further properties of the scanner *)

Lemma keypad_mask_bits i :
  0 ≤ i → Z.testbit keypad_mask i = (3 <=? i) && (i <=? 6).
Proof.
  intros Hi. destruct (Z.le_gt_cases i 7) as [Hle | Hgt].
  - assert (i = 0 ∨ i = 1 ∨ i = 2 ∨ i = 3 ∨ i = 4 ∨ i = 5 ∨ i = 6 ∨ i = 7)
      as Hc by lia.
    repeat (destruct Hc as [-> | Hc]); try reflexivity. subst i. reflexivity.
  - change keypad_mask with (Z.land 120 (Z.ones 7)).
    rewrite Z.land_spec, Z.ones_spec_high, andb_false_r by lia.
    symmetry. apply andb_false_iff. right. lia.
Qed.

Lemma same_keypad_lines P Q :
  (∀ i, 3 ≤ i ≤ 6 → Z.testbit P i = Z.testbit Q i) →
  Z.land P keypad_mask = Z.land Q keypad_mask.
Proof.
  intros Hbits. apply Z.bits_inj'; intros i Hi.
  rewrite !Z.land_spec, keypad_mask_bits by done.
  destruct (Z.leb_spec 3 i), (Z.leb_spec i 6); simpl;
    rewrite ?andb_false_r; try reflexivity.
  rewrite Hbits by lia. reflexivity.
Qed.

(** X1.  Only the lines P2.3-P2.6 matter to a poll: two samples of [P2IN]
    that agree on these four bits get the same answer, the same retained key
    and the same delay, in both builds. *)
Theorem scanner_reads_only_keypad_lines (P Q lastKey : Z) :
  (∀ i, 3 ≤ i ≤ 6 → Z.testbit P i = Z.testbit Q i) →
  Oled.getKeypadInput P lastKey = Oled.getKeypadInput Q lastKey ∧
  SevenSeg.getKeypadInput P lastKey = SevenSeg.getKeypadInput Q lastKey.
Proof.
  intros Hbits%same_keypad_lines.
  unfold Oled.getKeypadInput, SevenSeg.getKeypadInput, Oled.bcd, SevenSeg.bcd.
  by rewrite Hbits.
Qed.

(** The strobe line P2.0 high or low, same keypad lines. *)
Lemma scanner_reads_only_keypad_lines_witness :
  Oled.getKeypadInput 0x59 0 = Oled.getKeypadInput 0x58 0 ∧
  SevenSeg.getKeypadInput 0x59 0 = SevenSeg.getKeypadInput 0x58 0.
Proof.
  apply (scanner_reads_only_keypad_lines 0x59 0x58 0).
  intros i Hi. assert (i = 3 ∨ i = 4 ∨ i = 5 ∨ i = 6) as Hc by lia.
  repeat (destruct Hc as [-> | Hc]); try reflexivity. subst i. reflexivity.
Defined.

(** X2.  In the OLED build each of the sixteen codes is read back from the
    lines it is put on, decodes to a key, and no two codes decode to the
    same key. *)
Theorem oled_codes_are_distinct_keys (c c' : Z) :
  0 ≤ c ≤ 15 → 0 ≤ c' ≤ 15 →
  Oled.bcd (Z.shiftl c 3) = c ∧
  keymap c ≠ 0 ∧
  (keymap c = keymap c' → c = c').
Proof.
  intros Hc Hc'. split; [| split].
  - rewrite oled_bcd_nibble, Z.shiftr_shiftl_l by lia.
    change (3 - 3) with 0. rewrite Z.shiftl_0_r.
    change 15 with (Z.ones 4). rewrite Z.land_ones by lia.
    apply Z.mod_small. lia.
  - by apply keymap_mapped.
  - nibble_cases c; nibble_cases c'; (reflexivity || discriminate).
Qed.

Lemma oled_codes_are_distinct_keys_witness :
  Oled.bcd (Z.shiftl 11 3) = 11 ∧ keymap 11 = chr "C".
Proof.
  destruct (oled_codes_are_distinct_keys 11 11) as (Hrt & _ & _); [lia | lia |].
  split; [exact Hrt | reflexivity].
Defined.

(** X3.  For every sample the 7-segment build switches on twice the code the
    OLED build switches on: the key wired as code [c] is decoded as the key
    of code [2 c] when [c < 8] and as no key otherwise. *)
Theorem sevenseg_code_is_doubled (P2IN : Z) :
  SevenSeg.bcd P2IN = 2 * Oled.bcd P2IN ∧
  keymap (SevenSeg.bcd P2IN) =
    if Oled.bcd P2IN <? 8 then keymap (2 * Oled.bcd P2IN) else 0.
Proof.
  rewrite sevenseg_bcd_double, oled_bcd_nibble.
  split; [reflexivity |].
  pose proof (nibble_range P2IN).
  destruct (Z.ltb_spec (Z.land (Z.shiftr P2IN 3) 15) 8); [reflexivity |].
  apply keymap_unmapped. lia.
Qed.

(** The retained key after a poll is always the key just decoded. *)
Section EdgeDetector.

Variable poll : Z → Z → poll_result.
Variable decode : Z → Z.
Hypothesis poll_unfold : ∀ P2IN lastKey,
  poll P2IN lastKey =
    if decode P2IN =? lastKey then PollResult 0 lastKey []
    else PollResult (decode P2IN) (decode P2IN) [DelayCycles 200000].

Lemma poll_last_decoded P2IN lastKey : lastKey' (poll P2IN lastKey) = decode P2IN.
Proof.
  rewrite poll_unfold.
  destruct (Z.eqb_spec (decode P2IN) lastKey); simpl; congruence.
Qed.

Lemma poll_results_change samples : ∀ lastKey (i : nat) p q,
  samples !! i = Some p → samples !! S i = Some q →
  poll_results poll samples lastKey !! S i =
    Some (if decode q =? decode p then 0 else decode q).
Proof.
  induction samples as [| x xs IH]; intros lastKey i p q Hp Hq; [discriminate |].
  destruct i as [| i]; simpl in Hp, Hq |- *.
  - injection Hp as ->. destruct xs as [| y ys]; [discriminate |].
    injection Hq as ->. simpl. rewrite poll_last_decoded.
    rewrite (poll_unfold q). by destruct (decode q =? decode p).
  - by apply IH.
Qed.

End EdgeDetector.

(** X4.  The scanner reports changes of the decoded key: from the second
    poll on, a poll returns 0 when its sample decodes to the same key as the
    sample before, and the decoded key (0 for an unmapped code) otherwise,
    whatever happened earlier. *)
Theorem scanner_reports_changes
    (samples : list Z) (lastKey : Z) (i : nat) (p q : Z) :
  samples !! i = Some p → samples !! S i = Some q →
  poll_results Oled.getKeypadInput samples lastKey !! S i =
    Some (if keymap (Oled.bcd q) =? keymap (Oled.bcd p) then 0
          else keymap (Oled.bcd q)) ∧
  poll_results SevenSeg.getKeypadInput samples lastKey !! S i =
    Some (if keymap (SevenSeg.bcd q) =? keymap (SevenSeg.bcd p) then 0
          else keymap (SevenSeg.bcd q)).
Proof.
  intros Hp Hq. split.
  - by apply (poll_results_change _ _ oled_poll_unfold samples lastKey i).
  - by apply (poll_results_change _ _ sevenseg_poll_unfold samples lastKey i).
Qed.

Lemma scanner_reports_changes_witness :
  poll_results Oled.getKeypadInput [0x00; 0x00; 0x78] (chr "7") !! 1%nat = Some 0 ∧
  poll_results Oled.getKeypadInput [0x00; 0x00; 0x78] (chr "7") !! 2%nat
    = Some (chr "D").
Proof.
  split.
  - apply (scanner_reports_changes [0x00; 0x00; 0x78] (chr "7") 0 0x00 0x00);
      reflexivity.
  - apply (scanner_reports_changes [0x00; 0x00; 0x78] (chr "7") 1 0x00 0x78);
      reflexivity.
Defined.

(** * The main loop: scanner and controller together *)

Lemma run_loop_cons iter p ps st :
  run_loop iter (p :: ps) st =
    ((run_loop iter ps (iter p st).1).1,
     (iter p st).2 ++ (run_loop iter ps (iter p st).1).2).
Proof.
  simpl. destruct (iter p st) as [st1 t1]. simpl.
  by destruct (run_loop iter ps st1).
Qed.

Lemma run_keys_cons {C : Type}
    (handle : Z → lock_state → lock_state * list C) k ks s :
  run_keys handle (k :: ks) s =
    ((run_keys handle ks (handle k s).1).1,
     (handle k s).2 ++ (run_keys handle ks (handle k s).1).2).
Proof.
  simpl. destruct (handle k s) as [s1 out1]. simpl.
  by destruct (run_keys handle ks s1).
Qed.

Section Loop.

Context {C : Type}.
Variable poll : Z → Z → poll_result.
Variable handle : Z → lock_state → lock_state * list C.
Variable exec : C → list hw_event.
Variable iter : Z → Z * lock_state → Z * lock_state * list hw_event.

Hypothesis iter_unfold : ∀ P2IN st,
  iter P2IN st =
    let r := poll P2IN st.1 in
    if returned r =? 0 then (lastKey' r, st.2, poll_trace r)
    else
      let '(s', calls) := handle (returned r) st.2 in
      (lastKey' r, s', poll_trace r ++ concat (exec <$> calls)).

Lemma iter_state P2IN lastKey s :
  (iter P2IN (lastKey, s)).1 =
    (lastKey' (poll P2IN lastKey),
     if returned (poll P2IN lastKey) =? 0 then s
     else (handle (returned (poll P2IN lastKey)) s).1).
Proof.
  rewrite iter_unfold. simpl.
  destruct (returned (poll P2IN lastKey) =? 0); [reflexivity |].
  by destruct (handle (returned (poll P2IN lastKey)) s).
Qed.

(** The globals after the loop are those the controller reaches on the keys
    the scanner returned. *)
Lemma run_loop_globals samples : ∀ lastKey s,
  (run_loop iter samples (lastKey, s)).1.2 =
    (run_keys handle
       (filter (λ k, k ≠ 0) (poll_results poll samples lastKey)) s).1.
Proof.
  induction samples as [| p ps IH]; intros lastKey s; [reflexivity |].
  rewrite run_loop_cons. cbn [fst]. rewrite iter_state, IH.
  cbn [poll_results]. rewrite filter_cons.
  destruct (Z.eqb_spec (returned (poll p lastKey)) 0) as [Hz | Hnz].
  - by rewrite decide_False by (intros Hne; by apply Hne).
  - rewrite decide_True by done. by rewrite run_keys_cons.
Qed.

End Loop.

Lemma oled_run_keys_ok keys : ∀ s,
  state_ok s → state_ok (run_keys Oled.handle keys s).1.
Proof.
  induction keys as [| k ks IH]; intros s Hok; [done |].
  rewrite run_keys_cons. apply IH. by apply oled_handle_ok.
Qed.

Lemma sevenseg_run_keys_ok keys : ∀ s,
  state_ok s → state_ok (run_keys SevenSeg.handle keys s).1.
Proof.
  induction keys as [| k ks IH]; intros s Hok; [done |].
  rewrite run_keys_cons. apply IH. by apply sevenseg_handle_ok.
Qed.

(** X5.  Whatever the input lines do, the main loop leaves the globals as
    the controller would on the keys the scanner returned (the polls that
    return 0 change nothing), and the globals stay well formed; in both
    builds. *)
Theorem loop_is_scanner_then_controller
    (samples : list Z) (lastKey : Z) (s : lock_state) :
  ((run_loop Oled.loop_iteration samples (lastKey, s)).1.2 =
     (run_keys Oled.handle
        (filter (λ k, k ≠ 0) (poll_results Oled.getKeypadInput samples lastKey))
        s).1 ∧
   (run_loop SevenSeg.loop_iteration samples (lastKey, s)).1.2 =
     (run_keys SevenSeg.handle
        (filter (λ k, k ≠ 0) (poll_results SevenSeg.getKeypadInput samples lastKey))
        s).1) ∧
  (state_ok s →
   state_ok (run_loop Oled.loop_iteration samples (lastKey, s)).1.2 ∧
   state_ok (run_loop SevenSeg.loop_iteration samples (lastKey, s)).1.2).
Proof.
  assert ((run_loop Oled.loop_iteration samples (lastKey, s)).1.2 =
            (run_keys Oled.handle
               (filter (λ k, k ≠ 0)
                  (poll_results Oled.getKeypadInput samples lastKey)) s).1) as Ho.
  { by apply (run_loop_globals Oled.getKeypadInput Oled.handle Oled.exec). }
  assert ((run_loop SevenSeg.loop_iteration samples (lastKey, s)).1.2 =
            (run_keys SevenSeg.handle
               (filter (λ k, k ≠ 0)
                  (poll_results SevenSeg.getKeypadInput samples lastKey)) s).1) as Hs.
  { by apply (run_loop_globals SevenSeg.getKeypadInput SevenSeg.handle
                SevenSeg.exec). }
  split; [done |]. intros Hok. rewrite Ho, Hs.
  split; [by apply oled_run_keys_ok | by apply sevenseg_run_keys_ok].
Qed.

(** The lines carry 'A', then '1' twice, then '2', after power-up. *)
Lemma loop_is_scanner_then_controller_witness :
  (run_loop Oled.loop_iteration [0x18; 0x00; 0x00; 0x08] (0, initial_state)).1.2
    = LockState (cstring "0000") [chr "1"; chr "2"; 0; 0; 0] 2 SettingPin ∧
  state_ok
    (run_loop Oled.loop_iteration [0x18; 0x00; 0x00; 0x08] (0, initial_state)).1.2.
Proof.
  destruct (loop_is_scanner_then_controller [0x18; 0x00; 0x00; 0x08] 0 initial_state)
    as [[Ho _] Hok].
  split; [by rewrite Ho | apply (Hok initial_state_ok)].
Defined.

(** The scanner of the 7-segment build never returns 'A'. *)
Lemma sevenseg_never_returns_A P2IN lastKey :
  returned (SevenSeg.getKeypadInput P2IN lastKey) ≠ chr "A".
Proof.
  rewrite sevenseg_poll_unfold.
  destruct (keymap (SevenSeg.bcd P2IN) =? lastKey); simpl; [discriminate |].
  rewrite sevenseg_bcd_double. pose proof (nibble_range P2IN) as Hx.
  generalize dependent (Z.land (Z.shiftr P2IN 3) 15). intros x Hx.
  nibble_cases x; vm_compute; discriminate.
Qed.

Lemma sevenseg_poll_trace P2IN lastKey :
  Forall (λ e, e = DelayCycles 200000)
    (poll_trace (SevenSeg.getKeypadInput P2IN lastKey)).
Proof.
  rewrite sevenseg_poll_unfold.
  destruct (keymap (SevenSeg.bcd P2IN) =? lastKey); simpl; repeat constructor.
Qed.

Lemma sevenseg_unlocked_iteration P2IN lastKey s :
  mode s = Unlocked →
  (SevenSeg.loop_iteration P2IN (lastKey, s)).1.2 = s ∧
  Forall (λ e, e = DelayCycles 200000) (SevenSeg.loop_iteration P2IN (lastKey, s)).2.
Proof.
  intros Hm. unfold SevenSeg.loop_iteration. cbn [fst snd].
  pose proof (sevenseg_never_returns_A P2IN lastKey) as Hkey.
  pose proof (sevenseg_poll_trace P2IN lastKey) as Htr.
  destruct (returned (SevenSeg.getKeypadInput P2IN lastKey) =? 0); [done |].
  assert (SevenSeg.handle (returned (SevenSeg.getKeypadInput P2IN lastKey)) s
          = (s, [])) as ->.
  { unfold SevenSeg.handle. rewrite Hm. cbn [Unlocked Z.eqb].
    destruct (Z.eqb_spec (returned (SevenSeg.getKeypadInput P2IN lastKey))
                (chr "A")) as [Heq | _]; [contradiction | done]. }
  cbn [fst snd fmap list_fmap concat]. by rewrite app_nil_r.
Qed.

(** X6.  The main loop of the 7-segment build never leaves the unlocked
    mode: since its scanner never returns 'A', no sequence of samples of the
    input lines changes any global or calls the display; the whole output is
    debounce delays. *)
Theorem sevenseg_loop_stays_unlocked
    (samples : list Z) (lastKey : Z) (s : lock_state) :
  mode s = Unlocked →
  (run_loop SevenSeg.loop_iteration samples (lastKey, s)).1.2 = s ∧
  Forall (λ e, e = DelayCycles 200000)
    (run_loop SevenSeg.loop_iteration samples (lastKey, s)).2.
Proof.
  intros Hm. revert lastKey.
  induction samples as [| p ps IH]; intros lastKey; [by split |].
  rewrite run_loop_cons. cbn [fst snd].
  destruct (sevenseg_unlocked_iteration p lastKey s Hm) as [Hs Ht].
  destruct (SevenSeg.loop_iteration p (lastKey, s)) as [[last1 s1] t1].
  cbn [fst snd] in Hs, Ht |- *. subst s1.
  destruct (IH last1) as [IHs IHt].
  split; [done | by apply Forall_app].
Qed.

(** Every sixteenth value of the port, after power-up. *)
Lemma sevenseg_loop_stays_unlocked_witness :
  (run_loop SevenSeg.loop_iteration (seqZ 0 16 ≫= λ c, [c * 8; c * 8])
     (0, initial_state)).1.2 = initial_state.
Proof.
  apply (sevenseg_loop_stays_unlocked _ 0 initial_state). reflexivity.
Defined.

(** * Further properties of the controller *)

(** X7.  The only way out of a mode other than Unlocked into Unlocked is 'D'
    in Enter-PIN mode with the buffer equal to the stored PIN; in both
    builds. *)
Theorem unlock_requires_pin (key : Z) (s : lock_state) :
  state_ok s → mode s ≠ Unlocked →
  mode (Oled.handle key s).1 = Unlocked ∨ mode (SevenSeg.handle key s).1 = Unlocked →
  mode s = EnteringPin ∧ key = chr "D" ∧ entry_buffer s = stored_pin s.
Proof.
  intros Hok Hm Hun. rewrite <- handle_state_agree in Hun.
  assert (mode (Oled.handle key s).1 = Unlocked) as Hun' by tauto. clear Hun.
  revert Hm Hun'. unfold Unlocked, EnteringPin.
  handle_cases; bool_hyps; simpl; intros Hm Hun; try congruence; try lia.
  split; [done |]. split; [done |]. by apply strcmp_pin.
Qed.

Lemma unlock_requires_pin_witness :
  entry_buffer entering_1234 = stored_pin entering_1234.
Proof.
  apply (unlock_requires_pin (chr "D") entering_1234 entering_1234_ok).
  - discriminate.
  - left. reflexivity.
Defined.

(** X8.  The mode moves only along Unlocked -'A'-> Set-PIN -'B'-> Locked
    -'C'-> Enter-PIN -'D'-> Unlocked or Locked, the steps on 'B' and 'D'
    only with [index] at 4; every other call of [handle] keeps the mode.  In
    both builds, which change well-formed globals in the same way. *)
Theorem mode_steps (key : Z) (s : lock_state) :
  state_ok s →
  (Oled.handle key s).1 = (SevenSeg.handle key s).1 ∧
  (mode (Oled.handle key s).1 = mode s ∨
   (mode s = Unlocked ∧ key = chr "A" ∧ mode (Oled.handle key s).1 = SettingPin) ∨
   (mode s = SettingPin ∧ key = chr "B" ∧ index s = 4 ∧
    mode (Oled.handle key s).1 = Locked) ∨
   (mode s = Locked ∧ key = chr "C" ∧ mode (Oled.handle key s).1 = EnteringPin) ∨
   (mode s = EnteringPin ∧ key = chr "D" ∧ index s = 4 ∧
    (mode (Oled.handle key s).1 = Unlocked ∨ mode (Oled.handle key s).1 = Locked))).
Proof.
  intros _. split; [apply handle_state_agree |].
  unfold Unlocked, SettingPin, Locked, EnteringPin.
  handle_cases; bool_hyps; simpl; tauto.
Qed.

(** 'B' on "1234" typed in Set-PIN mode, and on two digits only. *)
Lemma mode_steps_witness :
  (Oled.handle (chr "B") setting_1234).1 = (SevenSeg.handle (chr "B") setting_1234).1 ∧
  mode (Oled.handle (chr "B") setting_1234).1 = Locked ∧
  mode (Oled.handle (chr "B") setting_12).1 = mode setting_12.
Proof.
  destruct (mode_steps (chr "B") setting_1234 setting_1234_ok) as [Hagree _].
  destruct (mode_steps (chr "B") setting_12 setting_12_ok)
    as [_ [Hsame | [(H & _) | [(_ & _ & H & _) | [(H & _) | (H & _)]]]]];
    try discriminate H.
  split; [exact Hagree | split; [reflexivity | exact Hsame]].
Defined.

Lemma digit_not_confirm key :
  is_digit key = true → (key =? chr "B") = false ∧ (key =? chr "D") = false.
Proof.
  intros Hd%is_digit_range. change (chr "B") with 66. change (chr "D") with 68.
  split; apply Z.eqb_neq; lia.
Qed.

(** X9.  A key that matches a row of the transition table always reaches the
    display: the OLED build starts its output with a new text, the 7-segment
    build makes one display call, or the error pattern followed by the
    stored PIN. *)
Theorem matched_key_renders (key : Z) (s : lock_state) :
  state_ok s → matches_row key s = true →
  (∃ msg rest, (Oled.handle key s).2 = Oled.DisplayMessage msg :: rest) ∧
  ((∃ c, (SevenSeg.handle key s).2 = [c]) ∨
   (SevenSeg.handle key s).2 =
     [SevenSeg.DisplayError; SevenSeg.UpdateDisplay (storedPassword s)]).
Proof.
  intros Hok. unfold matches_row. rewrite (buffer_length s Hok).
  unfold Unlocked, SettingPin, Locked, EnteringPin.
  destruct (is_digit key) eqn:Hdigit.
  - destruct (digit_not_confirm key Hdigit) as [HB HD].
    unfold Oled.handle, SevenSeg.handle. rewrite Hdigit, HB, HD.
    handle_cases; simpl; intros Hrow; try discriminate;
      (split; [by eauto | first [by left; eauto | by right]]).
  - unfold Oled.handle, SevenSeg.handle. rewrite Hdigit.
    handle_cases; simpl; intros Hrow; try discriminate;
      (split; [by eauto | first [by left; eauto | by right]]).
Qed.

Lemma matched_key_renders_witness :
  (∃ msg rest, (Oled.handle (chr "3") setting_12).2 = Oled.DisplayMessage msg :: rest) ∧
  (SevenSeg.handle (chr "D") entering_9999).2 =
    [SevenSeg.DisplayError; SevenSeg.UpdateDisplay (cstring "1234")].
Proof.
  destruct (matched_key_renders (chr "3") setting_12 setting_12_ok eq_refl)
    as [Ho _].
  destruct (matched_key_renders (chr "D") entering_9999 entering_9999_ok eq_refl)
    as [_ [[c Hc] | Hs]].
  - discriminate Hc.
  - split; [exact Ho | exact Hs].
Defined.

(** ** Whole entries *)

Lemma run_keys_app {C : Type}
    (handle : Z → lock_state → lock_state * list C) ks1 : ∀ ks2 s,
  (run_keys handle (ks1 ++ ks2) s).1 =
    (run_keys handle ks2 (run_keys handle ks1 s).1).1.
Proof.
  induction ks1 as [| k ks1 IH]; intros ks2 s; [reflexivity |].
  rewrite <- app_comm_cons, !run_keys_cons. cbn [fst]. apply IH.
Qed.

Lemma run_keys_agree keys : ∀ s,
  (run_keys Oled.handle keys s).1 = (run_keys SevenSeg.handle keys s).1.
Proof.
  induction keys as [| k ks IH]; intros s; [reflexivity |].
  rewrite !run_keys_cons. cbn [fst]. by rewrite handle_state_agree, IH.
Qed.

(** An entry: the key that opens it, four digits, the key that confirms. *)
Lemma oled_entry (opening : Z) (m : Z) (digits : list Z) (confirm : Z) (s : lock_state) :
  state_ok s → (m = SettingPin ∨ m = EnteringPin) →
  (Oled.handle opening s).1 = begin_entry m s →
  length digits = 4%nat → Forall (λ c, is_digit c = true) digits →
  ∃ s', (run_keys Oled.handle (opening :: digits ++ [confirm]) s).1
          = (Oled.handle confirm s').1 ∧
        state_ok s' ∧ mode s' = m ∧ storedPassword s' = storedPassword s ∧
        entry_buffer s' = digits.
Proof.
  intros Hok Hm Hopen Hlen Hdig.
  assert (state_ok (begin_entry m s)) as Hok1.
  { apply begin_entry_ok; [unfold SettingPin, EnteringPin in Hm; lia | done]. }
  destruct (run_digits Oled.handle oled_digit_append oled_digit_full digits
              (begin_entry m s) Hok1 Hm Hdig) as (Hok2 & Hm2 & Hst2 & Hbuf2).
  exists (run_keys Oled.handle digits (begin_entry m s)).1.
  split; [| split; [done | split; [done | split; [done |]]]].
  - rewrite run_keys_cons. cbn [fst]. rewrite Hopen, run_keys_app.
    by rewrite run_keys_cons.
  - rewrite Hbuf2. simpl. by rewrite take_ge by lia.
Qed.

(** An attempt to unlock from the locked mode. *)
Lemma oled_attempt guess s :
  state_ok s → mode s = Locked →
  length guess = 4%nat → Forall (λ c, is_digit c = true) guess →
  let s' := (run_keys Oled.handle (chr "C" :: guess ++ [chr "D"]) s).1 in
  state_ok s' ∧ storedPassword s' = storedPassword s ∧
  mode s' = if bool_decide (guess = stored_pin s) then Unlocked else Locked.
Proof.
  intros Hok Hm Hlen Hdig.
  destruct (oled_entry (chr "C") EnteringPin guess (chr "D") s)
    as (s1 & Hrun & Hok1 & Hm1 & Hst1 & Hbuf1); try done.
  { by right. }
  { unfold Oled.handle. rewrite Hm. reflexivity. }
  cbv zeta. rewrite Hrun.
  assert (index s1 = 4) as Hi1.
  { apply full_buffer_index; [done | by rewrite Hbuf1]. }
  assert (stored_pin s1 = stored_pin s) as Hpin by (unfold stored_pin; by rewrite Hst1).
  rewrite (oled_handle_D s1 Hm1 Hi1).
  case_bool_decide as Hguess.
  - rewrite (strcmp_match s1 Hok1) by congruence.
    split; [by apply set_mode_ok | done].
  - rewrite (strcmp_mismatch s1 Hok1) by congruence.
    split; [by apply set_mode_ok | done].
Qed.

(** X10.  Setting a PIN and then entering one: from any well-formed unlocked
    state, 'A', four digits [pin], 'B', 'C', four digits [guess], 'D' leaves
    [pin] stored, and the mode Unlocked when [guess] is [pin] and Locked
    otherwise; in both builds. *)
Theorem set_pin_then_enter (pin guess : list Z) (s : lock_state) :
  state_ok s → mode s = Unlocked →
  length pin = 4%nat → Forall (λ c, is_digit c = true) pin →
  length guess = 4%nat → Forall (λ c, is_digit c = true) guess →
  let keys := (chr "A" :: pin ++ [chr "B"]) ++ (chr "C" :: guess ++ [chr "D"]) in
  (stored_pin (run_keys Oled.handle keys s).1 = pin ∧
   mode (run_keys Oled.handle keys s).1
     = if bool_decide (guess = pin) then Unlocked else Locked) ∧
  (stored_pin (run_keys SevenSeg.handle keys s).1 = pin ∧
   mode (run_keys SevenSeg.handle keys s).1
     = if bool_decide (guess = pin) then Unlocked else Locked).
Proof.
  intros Hok Hm Hlp Hdp Hlg Hdg keys. rewrite <- run_keys_agree.
  assert (stored_pin (run_keys Oled.handle keys s).1 = pin ∧
          mode (run_keys Oled.handle keys s).1
            = if bool_decide (guess = pin) then Unlocked else Locked) as H;
    [| by split].
  unfold keys. rewrite run_keys_app.
  destruct (oled_entry (chr "A") SettingPin pin (chr "B") s)
    as (s1 & Hrun & Hok1 & Hm1 & Hst1 & Hbuf1); try done.
  { by left. }
  { unfold Oled.handle. rewrite Hm. reflexivity. }
  rewrite Hrun.
  assert (index s1 = 4) as Hi1.
  { apply full_buffer_index; [done | by rewrite Hbuf1]. }
  assert ((Oled.handle (chr "B") s1).1 = save_pin s1) as ->.
  { unfold Oled.handle. rewrite Hm1, Hi1. reflexivity. }
  pose proof (save_pin_ok s1 Hok1 Hi1) as Hok2.
  pose proof (save_pin_stored s1 Hok1 Hi1) as Hpin2. rewrite Hbuf1 in Hpin2.
  destruct (oled_attempt guess (save_pin s1) Hok2 eq_refl Hlg Hdg)
    as (_ & Hst3 & Hm3).
  rewrite Hpin2 in Hm3. split; [| exact Hm3].
  unfold stored_pin in Hpin2 |- *. by rewrite Hst3.
Qed.

Lemma set_pin_then_enter_witness :
  let keys := chr <$> ["A"; "4"; "7"; "1"; "1"; "B"; "C"; "4"; "7"; "1"; "1"; "D"]%char in
  let keys' := chr <$> ["A"; "4"; "7"; "1"; "1"; "B"; "C"; "4"; "7"; "1"; "0"; "D"]%char in
  mode (run_keys Oled.handle keys initial_state).1 = Unlocked ∧
  mode (run_keys SevenSeg.handle keys' initial_state).1 = Locked ∧
  stored_pin (run_keys SevenSeg.handle keys' initial_state).1
    = chr <$> ["4"; "7"; "1"; "1"]%char.
Proof.
  intros keys keys'.
  assert (∀ l, l = chr <$> ["4"; "7"; "1"; "1"]%char ∨ l = chr <$> ["4"; "7"; "1"; "0"]%char →
               length l = 4%nat ∧ Forall (λ c, is_digit c = true) l) as Hl.
  { intros l [-> | ->]; (split; [reflexivity | repeat constructor]). }
  destruct (Hl (chr <$> ["4"; "7"; "1"; "1"]%char)) as [Hl1 Hd1]; [by left |].
  destruct (Hl (chr <$> ["4"; "7"; "1"; "0"]%char)) as [Hl2 Hd2]; [by right |].
  destruct (set_pin_then_enter _ _ initial_state initial_state_ok eq_refl
              Hl1 Hd1 Hl1 Hd1) as [[_ Ho] _].
  destruct (set_pin_then_enter _ _ initial_state initial_state_ok eq_refl
              Hl1 Hd1 Hl2 Hd2) as [_ [Hs1 Hs2]].
  split; [exact Ho | split; [exact Hs2 | exact Hs1]].
Defined.

Lemma oled_wrong_attempts (attempts : list (list Z)) : ∀ s,
  state_ok s → mode s = Locked →
  Forall (λ g, length g = 4%nat ∧ Forall (λ c, is_digit c = true) g ∧
               g ≠ stored_pin s) attempts →
  let s' := (run_keys Oled.handle (attempts ≫= λ g, chr "C" :: g ++ [chr "D"]) s).1 in
  state_ok s' ∧ mode s' = Locked ∧ storedPassword s' = storedPassword s.
Proof.
  induction attempts as [| g gs IH]; intros s Hok Hm Hall; [done |].
  apply Forall_cons in Hall as [(Hlen & Hdig & Hne) Hall].
  cbv zeta. rewrite bind_cons, run_keys_app.
  destruct (oled_attempt g s Hok Hm Hlen Hdig) as (Hok1 & Hst1 & Hm1).
  rewrite bool_decide_false in Hm1 by done.
  destruct (IH (run_keys Oled.handle (chr "C" :: g ++ [chr "D"]) s).1)
    as (Hok2 & Hm2 & Hst2); try done.
  { unfold stored_pin. by rewrite Hst1. }
  split; [done | split; [done | congruence]].
Qed.

(** X11.  Wrong attempts never lock the user out and never touch the PIN:
    from a locked state, after any number of complete wrong attempts ('C',
    four digits other than the PIN, 'D') the mode is Locked and
    [storedPassword] is the same, and 'C', the PIN, 'D' then unlocks; in
    both builds. *)
Theorem wrong_attempts_do_not_lock_out (attempts : list (list Z)) (s : lock_state) :
  state_ok s → mode s = Locked →
  Forall (λ g, length g = 4%nat ∧ Forall (λ c, is_digit c = true) g ∧
               g ≠ stored_pin s) attempts →
  let tries := attempts ≫= λ g, chr "C" :: g ++ [chr "D"] in
  let unlock := chr "C" :: stored_pin s ++ [chr "D"] in
  (mode (run_keys Oled.handle tries s).1 = Locked ∧
   storedPassword (run_keys Oled.handle tries s).1 = storedPassword s ∧
   mode (run_keys Oled.handle (tries ++ unlock) s).1 = Unlocked) ∧
  (mode (run_keys SevenSeg.handle tries s).1 = Locked ∧
   storedPassword (run_keys SevenSeg.handle tries s).1 = storedPassword s ∧
   mode (run_keys SevenSeg.handle (tries ++ unlock) s).1 = Unlocked).
Proof.
  intros Hok Hm Hall tries unlock. rewrite <- !run_keys_agree.
  destruct (oled_wrong_attempts attempts s Hok Hm Hall) as (Hok1 & Hm1 & Hst1).
  fold tries in Hok1, Hm1, Hst1.
  assert (mode (run_keys Oled.handle (tries ++ unlock) s).1 = Unlocked) as Hun;
    [| done].
  rewrite run_keys_app. unfold unlock.
  assert (stored_pin (run_keys Oled.handle tries s).1 = stored_pin s) as Hpin.
  { unfold stored_pin. by rewrite Hst1. }
  destruct (oled_attempt (stored_pin s) (run_keys Oled.handle tries s).1 Hok1 Hm1)
    as (_ & _ & Hmode).
  - by apply stored_length.
  - by destruct Hok.
  - rewrite Hmode, Hpin. by rewrite bool_decide_true.
Qed.

(** Two wrong attempts against the PIN "1234", then the right one. *)
Lemma wrong_attempts_do_not_lock_out_witness :
  let s := LockState (cstring "1234") (cstring "1234") 4 Locked in
  let keys := chr <$> ["C"; "9"; "9"; "9"; "9"; "D"; "C"; "0"; "0"; "0"; "0"; "D";
                       "C"; "1"; "2"; "3"; "4"; "D"]%char in
  mode (run_keys Oled.handle keys s).1 = Unlocked ∧
  mode (run_keys SevenSeg.handle keys s).1 = Unlocked.
Proof.
  intros s keys.
  assert (state_ok s) as Hok by (split; simpl; try done; try lia; repeat constructor).
  assert (Forall (λ g, length g = 4%nat ∧ Forall (λ c, is_digit c = true) g ∧
                       g ≠ stored_pin s)
            [chr <$> ["9"; "9"; "9"; "9"]%char; chr <$> ["0"; "0"; "0"; "0"]%char])
    as Hall.
  { repeat constructor; discriminate. }
  destruct (wrong_attempts_do_not_lock_out _ s Hok eq_refl Hall)
    as [(_ & _ & Ho) (_ & _ & Hs)].
  split; [exact Ho | exact Hs].
Defined.

(** * The port registers *)

Lemma testbit_to_uchar x i : 0 ≤ i < 8 → Z.testbit (to_uchar x) i = Z.testbit x i.
Proof.
  intros Hi. unfold to_uchar. change 256 with (2 ^ 8).
  apply Z.mod_pow2_bits_low. lia.
Qed.

Lemma to_uchar_range x : 0 ≤ to_uchar x < 256.
Proof. apply Z.mod_pos_bound. lia. Qed.

Lemma to_uchar_small x : 0 ≤ x < 256 → to_uchar x = x.
Proof. apply Z.mod_small. Qed.

Lemma reg_write_eq r v g : reg_write r v g r = to_uchar v.
Proof. unfold reg_write. by rewrite decide_True. Qed.

Lemma reg_write_ne r r' v g : r' ≠ r → reg_write r v g r' = g r'.
Proof. intros Hne. unfold reg_write. by rewrite decide_False. Qed.

(** Bit [i] of a register after each kind of statement. *)
Lemma reg_set_bit r m g i :
  0 ≤ i < 8 →
  Z.testbit (reg_set r m g r) i = Z.testbit (g r) i || Z.testbit m i.
Proof.
  intros Hi. unfold reg_set. by rewrite reg_write_eq, testbit_to_uchar, Z.lor_spec.
Qed.

Lemma reg_clear_bit r m g i :
  0 ≤ i < 8 →
  Z.testbit (reg_clear r m g r) i = Z.testbit (g r) i && negb (Z.testbit m i).
Proof.
  intros Hi. unfold reg_clear.
  rewrite reg_write_eq, testbit_to_uchar, Z.land_spec, Z.lnot_spec by lia. done.
Qed.

Lemma reg_toggle_bit r m g i :
  0 ≤ i < 8 →
  Z.testbit (reg_toggle r m g r) i = xorb (Z.testbit (g r) i) (Z.testbit m i).
Proof.
  intros Hi. unfold reg_toggle. by rewrite reg_write_eq, testbit_to_uchar, Z.lxor_spec.
Qed.

Lemma reg_write_bit r v g i :
  0 ≤ i < 8 → Z.testbit (reg_write r v g r) i = Z.testbit v i.
Proof. intros Hi. by rewrite reg_write_eq, testbit_to_uchar. Qed.

Lemma reg_set_ne r r' m g : r' ≠ r → reg_set r m g r' = g r'.
Proof. apply reg_write_ne. Qed.

Lemma reg_clear_ne r r' m g : r' ≠ r → reg_clear r m g r' = g r'.
Proof. apply reg_write_ne. Qed.

Lemma reg_toggle_ne r r' m g : r' ≠ r → reg_toggle r m g r' = g r'.
Proof. apply reg_write_ne. Qed.

(** Reading a register, or one of its bits, through a stack of register
    statements. *)
Ltac reg_simpl :=
  repeat first
    [ rewrite reg_set_ne by discriminate
    | rewrite reg_clear_ne by discriminate
    | rewrite reg_toggle_ne by discriminate
    | rewrite reg_write_ne by discriminate
    | rewrite reg_set_bit by lia
    | rewrite reg_clear_bit by lia
    | rewrite reg_toggle_bit by lia
    | rewrite reg_write_bit by lia ].

Lemma run_hw_app t1 t2 g : run_hw (t1 ++ t2) g = run_hw t2 (run_hw t1 g).
Proof. apply fold_left_app. Qed.

(** Two 8-bit values with the same eight bits are equal. *)
Lemma uchar_bits_eq x y :
  0 ≤ x < 256 → 0 ≤ y < 256 →
  (∀ i, 0 ≤ i < 8 → Z.testbit x i = Z.testbit y i) → x = y.
Proof.
  intros Hx Hy Hbits.
  rewrite <- (to_uchar_small x Hx), <- (to_uchar_small y Hy).
  unfold to_uchar. change 256 with (2 ^ 8).
  apply Z.bits_inj'; intros i Hi.
  destruct (Z.lt_ge_cases i 8).
  - rewrite !Z.mod_pow2_bits_low by lia. apply Hbits. lia.
  - by rewrite !Z.mod_pow2_bits_high by lia.
Qed.

Lemma apply_hw_ok e g : regs_ok g → regs_ok (apply_hw e g).
Proof.
  intros Hg r.
  destruct e as [p v | p m | p m | p m | n | | x y text]; simpl; try apply Hg;
    unfold reg_set, reg_clear, reg_toggle, reg_write;
    (case_decide; [apply to_uchar_range | apply Hg]).
Qed.

Lemma run_hw_ok t : ∀ g, regs_ok g → regs_ok (run_hw t g).
Proof.
  induction t as [| e t IH]; intros g Hg; [done |].
  apply IH. by apply apply_hw_ok.
Qed.

(** ** The LEDs of the OLED build *)

(** One on/off flash: toggle, wait, toggle, wait. *)
Lemma flash_once_restores g :
  regs_ok g →
  ∀ r, run_hw [PortToggle P1OUT BIT4; DelayCycles 3000000;
               PortToggle P1OUT BIT4; DelayCycles 3000000] g r = g r.
Proof.
  intros Hg r. cbn [run_hw fold_left apply_hw].
  destruct (decide (r = OUT P1OUT)) as [-> | Hne].
  - apply uchar_bits_eq; [| apply Hg |].
    + unfold reg_toggle at 1. rewrite reg_write_eq. apply to_uchar_range.
    + intros i Hi. rewrite !reg_toggle_bit by done.
      by destruct (Z.testbit (g (OUT P1OUT)) i), (Z.testbit BIT4 i).
  - by rewrite !reg_toggle_ne.
Qed.

Lemma flashes_restore n : ∀ g,
  regs_ok g →
  ∀ r, run_hw (concat (replicate n [PortToggle P1OUT BIT4; DelayCycles 3000000;
                                    PortToggle P1OUT BIT4; DelayCycles 3000000])) g r
       = g r.
Proof.
  induction n as [| n IH]; intros g Hg r; [done |].
  cbn [replicate concat]. rewrite run_hw_app.
  rewrite IH by (by apply run_hw_ok). by apply flash_once_restores.
Qed.

(** X12.  [flashLockedLED] leaves every port register as it found it: after
    its ten flashes the locked LED is in the state it was in before, and the
    call has waited 60000000 cycles. *)
Theorem flash_restores_led (g : regs) :
  regs_ok g →
  (∀ r, run_hw Oled.flashLockedLED g r = g r) ∧
  locked_led (run_hw Oled.flashLockedLED g) = locked_led g ∧
  delay_cycles Oled.flashLockedLED = 60000000.
Proof.
  intros Hg.
  assert (∀ r, run_hw Oled.flashLockedLED g r = g r) as Hrest.
  { intros r. by apply flashes_restore. }
  split; [done |]. split; [| reflexivity].
  unfold locked_led. by rewrite Hrest.
Qed.

Lemma regs_reset_ok : regs_ok regs_reset.
Proof. intros r. unfold regs_reset. lia. Qed.

Lemma flash_restores_led_witness :
  locked_led (run_hw Oled.flashLockedLED (reg_set (OUT P1OUT) BIT4 regs_reset)) = true.
Proof.
  destruct (flash_restores_led (reg_set (OUT P1OUT) BIT4 regs_reset)) as (_ & Hled & _).
  - apply (apply_hw_ok (PortSet P1OUT BIT4)), regs_reset_ok.
  - rewrite Hled. reflexivity.
Defined.

Lemma testbit_BIT4 i : 0 ≤ i → Z.testbit BIT4 i = (i =? 4).
Proof.
  intros Hi. change BIT4 with (2 ^ 4). rewrite Z.pow2_bits_eqb by lia.
  apply Z.eqb_sym.
Qed.

Lemma testbit_BIT5 i : 0 ≤ i → Z.testbit BIT5 i = (i =? 5).
Proof.
  intros Hi. change BIT5 with (2 ^ 5). rewrite Z.pow2_bits_eqb by lia.
  apply Z.eqb_sym.
Qed.

Lemma testbit_BIT0 i : 0 ≤ i → Z.testbit BIT0 i = (i =? 0).
Proof.
  intros Hi. change BIT0 with (2 ^ 0). rewrite Z.pow2_bits_eqb by lia.
  apply Z.eqb_sym.
Qed.

Lemma locked_led_set4 g : locked_led (reg_set (OUT P1OUT) BIT4 g) = true.
Proof. unfold locked_led. rewrite reg_set_bit by lia. apply orb_true_r. Qed.

Lemma locked_led_clear4 g : locked_led (reg_clear (OUT P1OUT) BIT4 g) = false.
Proof. unfold locked_led. rewrite reg_clear_bit by lia. apply andb_false_r. Qed.

Lemma locked_led_set5 g : locked_led (reg_set (OUT P1OUT) BIT5 g) = locked_led g.
Proof. unfold locked_led. rewrite reg_set_bit by lia. apply orb_false_r. Qed.

Lemma locked_led_clear5 g : locked_led (reg_clear (OUT P1OUT) BIT5 g) = locked_led g.
Proof. unfold locked_led. rewrite reg_clear_bit by lia. apply andb_true_r. Qed.

Lemma unlocked_led_set5 g : unlocked_led (reg_set (OUT P1OUT) BIT5 g) = true.
Proof. unfold unlocked_led. rewrite reg_set_bit by lia. apply orb_true_r. Qed.

Lemma unlocked_led_clear5 g : unlocked_led (reg_clear (OUT P1OUT) BIT5 g) = false.
Proof. unfold unlocked_led. rewrite reg_clear_bit by lia. apply andb_false_r. Qed.

Lemma unlocked_led_set4 g : unlocked_led (reg_set (OUT P1OUT) BIT4 g) = unlocked_led g.
Proof. unfold unlocked_led. rewrite reg_set_bit by lia. apply orb_false_r. Qed.

Lemma unlocked_led_clear4 g :
  unlocked_led (reg_clear (OUT P1OUT) BIT4 g) = unlocked_led g.
Proof. unfold unlocked_led. rewrite reg_clear_bit by lia. apply andb_true_r. Qed.

Create Rewrite HintDb leds.
#[local] Hint Rewrite locked_led_set4 locked_led_clear4 locked_led_set5
  locked_led_clear5 unlocked_led_set5 unlocked_led_clear5 unlocked_led_set4
  unlocked_led_clear4 : leds.

(** The text functions do not touch the ports. *)
Lemma run_hw_displayMessage msg g : run_hw (Oled.displayMessage msg) g = g.
Proof. reflexivity. Qed.

(** The LEDs after one call of [handle], given that they showed the mode
    before it. *)
Lemma oled_leds_step key s g :
  locked_led g = (mode s =? Locked) || (mode s =? EnteringPin) →
  unlocked_led g = (mode s =? Unlocked) →
  let s' := (Oled.handle key s).1 in
  let g' := run_hw (concat (Oled.exec <$> (Oled.handle key s).2)) g in
  locked_led g' = (mode s' =? Locked) || (mode s' =? EnteringPin) ∧
  unlocked_led g' = (mode s' =? Unlocked).
Proof.
  unfold Locked, EnteringPin, Unlocked.
  handle_cases; cbn [fst snd fmap list_fmap concat Oled.exec mode begin_entry
                       append_key save_pin set_mode app];
    rewrite ?run_hw_app, ?run_hw_displayMessage;
    cbn [run_hw fold_left apply_hw]; autorewrite with leds;
    intros Hl Hu;
    repeat match goal with
    | H : ?b = _ |- context [?b] => rewrite H
    end; by split.
Qed.

Lemma oled_leds_run keys : ∀ s g,
  locked_led g = (mode s =? Locked) || (mode s =? EnteringPin) →
  unlocked_led g = (mode s =? Unlocked) →
  let s' := (run_keys Oled.handle keys s).1 in
  let g' := run_hw (concat (Oled.exec <$> (run_keys Oled.handle keys s).2)) g in
  locked_led g' = (mode s' =? Locked) || (mode s' =? EnteringPin) ∧
  unlocked_led g' = (mode s' =? Unlocked).
Proof.
  induction keys as [| k ks IH]; intros s g Hl Hu; [by split |].
  cbv zeta. rewrite run_keys_cons. cbn [fst snd].
  rewrite fmap_app, concat_app, run_hw_app.
  destruct (oled_leds_step k s g Hl Hu) as [Hl1 Hu1].
  by apply IH.
Qed.

(** X13.  In the OLED build the LEDs always show the mode: from power-up,
    with any earlier contents of the port registers and after any sequence of
    keys, the locked LED is lit exactly in the modes Locked and Enter-PIN and
    the unlocked LED exactly in the mode Unlocked (in Set-PIN mode both are
    dark). *)
Theorem leds_show_mode (keys : list Z) (g : regs) :
  let s' := (run_keys Oled.handle keys initial_state).1 in
  let g' := run_hw (concat (Oled.exec <$> (run_keys Oled.handle keys initial_state).2))
              (Oled.main_init g) in
  locked_led g' = (mode s' =? Locked) || (mode s' =? EnteringPin) ∧
  unlocked_led g' = (mode s' =? Unlocked).
Proof.
  apply oled_leds_run.
  - unfold Oled.main_init, Oled.startup.
    cbn [fmap list_fmap concat Oled.exec app].
    rewrite ?run_hw_app, ?run_hw_displayMessage.
    cbn [run_hw fold_left apply_hw]. by autorewrite with leds.
  - unfold Oled.main_init, Oled.startup.
    cbn [fmap list_fmap concat Oled.exec app].
    rewrite ?run_hw_app, ?run_hw_displayMessage.
    cbn [run_hw fold_left apply_hw]. by autorewrite with leds.
Qed.

Lemma led_event_frame e g :
  led_event e →
  (∀ r, r ≠ OUT P1OUT → apply_hw e g r = g r) ∧
  (∀ i, 0 ≤ i < 8 → i ≠ 4 → i ≠ 5 →
        Z.testbit (apply_hw e g (OUT P1OUT)) i = Z.testbit (g (OUT P1OUT)) i).
Proof.
  intros He.
  destruct e as [p v | [] m | [] m | [] m | n | | x y text]; simpl in He;
    try contradiction; cbn [apply_hw]; (split; [intros r Hr | intros i Hi H4 H5]);
    try reflexivity.
  - by apply reg_set_ne.
  - rewrite reg_set_bit by done.
    apply Z.eqb_neq in H4, H5.
    destruct He as [-> | ->]; rewrite ?testbit_BIT4, ?testbit_BIT5 by lia;
      rewrite ?H4, ?H5; apply orb_false_r.
  - by apply reg_clear_ne.
  - rewrite reg_clear_bit by done.
    apply Z.eqb_neq in H4, H5.
    destruct He as [-> | ->]; rewrite ?testbit_BIT4, ?testbit_BIT5 by lia;
      rewrite ?H4, ?H5; apply andb_true_r.
  - by apply reg_toggle_ne.
  - rewrite reg_toggle_bit by done.
    apply Z.eqb_neq in H4, H5.
    destruct He as [-> | ->]; rewrite ?testbit_BIT4, ?testbit_BIT5 by lia;
      rewrite ?H4, ?H5; apply xorb_false_r.
Qed.

Lemma led_events_frame t : ∀ g,
  Forall led_event t →
  (∀ r, r ≠ OUT P1OUT → run_hw t g r = g r) ∧
  (∀ i, 0 ≤ i < 8 → i ≠ 4 → i ≠ 5 →
        Z.testbit (run_hw t g (OUT P1OUT)) i = Z.testbit (g (OUT P1OUT)) i).
Proof.
  induction t as [| e t IH]; intros g Ht; [by split |].
  apply Forall_cons in Ht as [He Ht].
  destruct (led_event_frame e g He) as [Hr1 Hb1].
  destruct (IH (apply_hw e g) Ht) as [Hr2 Hb2].
  split.
  - intros r Hr. cbn [run_hw fold_left]. fold (run_hw t (apply_hw e g)).
    by rewrite Hr2, Hr1.
  - intros i Hi H4 H5. cbn [run_hw fold_left]. fold (run_hw t (apply_hw e g)).
    by rewrite Hb2, Hb1.
Qed.

Lemma oled_exec_led_events c : Forall led_event (Oled.exec c).
Proof.
  destruct c; cbn [Oled.exec];
    try (unfold Oled.flashLockedLED; cbn [replicate concat app]);
    repeat (constructor; [simpl; by auto |]); constructor.
Qed.

Lemma oled_calls_led_events calls :
  Forall led_event (concat (Oled.exec <$> calls)).
Proof.
  induction calls as [| c cs IH]; [constructor |].
  cbn [fmap list_fmap concat]. apply Forall_app. split; [| exact IH].
  apply oled_exec_led_events.
Qed.

(** The keypad pins after [setupGPIO] of [main.c]. *)
Lemma oled_setup_keypad g i :
  3 ≤ i ≤ 6 →
  Z.testbit (Oled.setupGPIO g P2SEL) i = false ∧
  Z.testbit (Oled.setupGPIO g P2DIR) i = false ∧
  Z.testbit (Oled.setupGPIO g P2REN) i = true ∧
  Z.testbit (Oled.setupGPIO g (OUT P2OUT)) i = true.
Proof.
  intros Hi. unfold Oled.setupGPIO, seq_ops. cbn [fold_left].
  assert (Z.testbit keypad_mask i = true) as Hmask.
  { rewrite keypad_mask_bits by lia. apply andb_true_iff. lia. }
  repeat split; reg_simpl; rewrite Hmask; simpl;
    rewrite ?andb_false_r, ?orb_true_r; reflexivity.
Qed.

(** X14.  No output function of the OLED build writes any port bit other
    than the two LED pins P1.4 and P1.5: whatever calls are made, every other
    register and every other bit of P1OUT keep their values; in particular
    the keypad pins stay GPIO inputs with pull-ups as [setupGPIO] left
    them. *)
Theorem oled_output_touches_only_leds (calls : list Oled.call) (g : regs) :
  (∀ r, r ≠ OUT P1OUT → run_hw (concat (Oled.exec <$> calls)) g r = g r) ∧
  (∀ i, 0 ≤ i < 8 → i ≠ 4 → i ≠ 5 →
     Z.testbit (run_hw (concat (Oled.exec <$> calls)) g (OUT P1OUT)) i
       = Z.testbit (g (OUT P1OUT)) i) ∧
  (∀ i, 3 ≤ i ≤ 6 →
     let g' := run_hw (concat (Oled.exec <$> calls)) (Oled.main_init g) in
     Z.testbit (g' P2SEL) i = false ∧ Z.testbit (g' P2DIR) i = false ∧
     Z.testbit (g' P2REN) i = true ∧ Z.testbit (g' (OUT P2OUT)) i = true).
Proof.
  destruct (led_events_frame _ g (oled_calls_led_events calls)) as [Hr Hb].
  split; [exact Hr |]. split; [exact Hb |].
  intros i Hi. cbv zeta. unfold Oled.main_init.
  rewrite <- run_hw_app, <- concat_app, <- fmap_app.
  destruct (led_events_frame _ (Oled.setupGPIO g)
              (oled_calls_led_events (Oled.startup ++ calls))) as [Hr' _].
  rewrite !Hr' by discriminate. by apply oled_setup_keypad.
Qed.

Lemma oled_output_touches_only_leds_witness :
  let calls := (Oled.handle (chr "D") entering_9999).2 in
  run_hw (concat (Oled.exec <$> calls)) regs_reset P2REN = 0 ∧
  Z.testbit (run_hw (concat (Oled.exec <$> calls)) regs_reset (OUT P1OUT)) 0 = false ∧
  Z.testbit (run_hw (concat (Oled.exec <$> calls)) (Oled.main_init regs_reset) P2REN) 3
    = true.
Proof.
  intros calls.
  destruct (oled_output_touches_only_leds calls regs_reset) as (Hr & Hb & Hk).
  split; [by rewrite Hr |]. split; [rewrite Hb by lia; reflexivity |].
  by destruct (Hk 3) as (_ & _ & Hren & _); [lia |].
Defined.

(** ** What the three [setupGPIO] do, pin by pin *)

Lemma oled_setup_bits g r i :
  0 ≤ i < 8 →
  Z.testbit (Oled.setupGPIO g r) i =
    let old := Z.testbit (g r) i in
    let led := (i =? 4) || (i =? 5) in
    let key := (3 <=? i) && (i <=? 6) in
    match r with
    | P1DIR => old || led
    | OUT P1OUT => old && negb led
    | P2SEL | P2DIR => old && negb key
    | P2REN | OUT P2OUT => old || key
    | _ => old
    end.
Proof.
  intros Hi. unfold Oled.setupGPIO, seq_ops. cbn [fold_left].
  bit_cases i; destruct r as [[] | | | | | | |]; reg_simpl;
    try reflexivity; by destruct (Z.testbit (g _) _).
Qed.

Lemma sevenseg_setup_bits g r i :
  0 ≤ i < 8 →
  Z.testbit (SevenSeg.setupGPIO g r) i =
    let old := Z.testbit (g r) i in
    let key := (3 <=? i) && (i <=? 6) in
    match r with
    | P2SEL => old && negb key
    | P2DIR => (old && negb key) || (i =? 0)
    | P2REN => old || key
    | OUT P2OUT => (old || key) && negb (i =? 0)
    | P6DIR => old || (i <? 4)
    | P4DIR => old || (i <? 2)
    | OUT P6OUT | OUT P4OUT => false
    | _ => old
    end.
Proof.
  intros Hi. unfold SevenSeg.setupGPIO, seq_ops. cbn [fold_left].
  bit_cases i; destruct r as [[] | | | | | | |]; reg_simpl;
    try reflexivity; by destruct (Z.testbit (g _) _).
Qed.

Lemma demo_setup_bits g r i :
  0 ≤ i < 8 →
  Z.testbit (BcdDemo.setupGPIO g r) i =
    let old := Z.testbit (g r) i in
    let line := (2 <=? i) && (i <=? 5) in
    match r with
    | P1DIR => old && negb line
    | P1REN | OUT P1OUT => old || line
    | _ => old
    end.
Proof.
  intros Hi. unfold BcdDemo.setupGPIO, seq_ops. cbn [fold_left].
  bit_cases i; destruct r as [[] | | | | | | |]; reg_simpl;
    try reflexivity; by destruct (Z.testbit (g _) _).
Qed.

(** X15.  Each [setupGPIO] configures exactly the pins it names and leaves
    every other bit of every register as it was.  [main.c]: P1.4 and P1.5
    outputs, low; P2.3-P2.6 GPIO inputs with pull-ups.  [main copy 2.c]:
    the same keypad pins; P2.0 output, low; P6.0-P6.3 and P4.0-P4.1 outputs,
    P6OUT and P4OUT cleared.  [main copy.c]: P1.2-P1.5 inputs with
    pull-ups. *)
Theorem setupGPIO_pins (g : regs) (r : register) (i : Z) :
  0 ≤ i < 8 →
  let old := Z.testbit (g r) i in
  let led := (i =? 4) || (i =? 5) in
  let key := (3 <=? i) && (i <=? 6) in
  let line := (2 <=? i) && (i <=? 5) in
  Z.testbit (Oled.setupGPIO g r) i =
    match r with
    | P1DIR => old || led
    | OUT P1OUT => old && negb led
    | P2SEL | P2DIR => old && negb key
    | P2REN | OUT P2OUT => old || key
    | _ => old
    end ∧
  Z.testbit (SevenSeg.setupGPIO g r) i =
    match r with
    | P2SEL => old && negb key
    | P2DIR => (old && negb key) || (i =? 0)
    | P2REN => old || key
    | OUT P2OUT => (old || key) && negb (i =? 0)
    | P6DIR => old || (i <? 4)
    | P4DIR => old || (i <? 2)
    | OUT P6OUT | OUT P4OUT => false
    | _ => old
    end ∧
  Z.testbit (BcdDemo.setupGPIO g r) i =
    match r with
    | P1DIR => old && negb line
    | P1REN | OUT P1OUT => old || line
    | _ => old
    end.
Proof.
  intros Hi. cbv zeta.
  split; [by apply oled_setup_bits |].
  split; [by apply sevenseg_setup_bits | by apply demo_setup_bits].
Qed.

(** Pin P2.3 after each set-up, from registers that had P2DIR all ones. *)
Lemma setupGPIO_pins_witness :
  Z.testbit (Oled.setupGPIO (reg_write P2DIR 0xFF regs_reset) P2DIR) 3 = false ∧
  Z.testbit (SevenSeg.setupGPIO (reg_write P2DIR 0xFF regs_reset) P2DIR) 3 = false ∧
  Z.testbit (BcdDemo.setupGPIO (reg_write P2DIR 0xFF regs_reset) P2DIR) 3 = true.
Proof.
  destruct (setupGPIO_pins (reg_write P2DIR 0xFF regs_reset) P2DIR 3)
    as (Ho & Hs & Hd); [lia |].
  rewrite Ho, Hs, Hd. repeat split.
Defined.

(** ** The ports of the 7-segment build *)

Lemma updateDisplay_regs digits g r :
  run_hw (SevenSeg.updateDisplay digits) g r =
    match r with
    | OUT P2OUT => reg_clear (OUT P2OUT) BIT0 (reg_set (OUT P2OUT) BIT0 g) (OUT P2OUT)
    | OUT P4OUT => 3
    | OUT P6OUT => to_uchar (SevenSeg.digitVal (rd (SevenSeg.displayBuffer digits) 3))
    | _ => g r
    end.
Proof.
  unfold SevenSeg.updateDisplay. change (seqZ 0 4) with [0; 1; 2; 3].
  cbn [fmap list_fmap concat app run_hw fold_left apply_hw].
  destruct r as [[] | | | | | | |]; reflexivity.
Qed.

Lemma sevenseg_exec_regs c g :
  ∃ digits, ∀ r,
    run_hw (SevenSeg.exec c) g r = run_hw (SevenSeg.updateDisplay digits) g r.
Proof.
  destruct c as [digits | |]; cbn [SevenSeg.exec].
  - by exists digits.
  - by exists (cstring "0000").
  - exists (cstring "8888"). intros r. unfold SevenSeg.displayError.
    by rewrite run_hw_app.
Qed.

Lemma sevenseg_setup_pins_ok g : sevenseg_pins_ok (SevenSeg.setupGPIO g).
Proof.
  split; [| split].
  - intros i Hi. rewrite !sevenseg_setup_bits by lia. cbv zeta.
    replace (3 <=? i) with true by lia. replace (i <=? 6) with true by lia.
    replace (i =? 0) with false by lia. simpl.
    by rewrite !andb_false_r, !orb_true_r.
  - rewrite sevenseg_setup_bits by lia. apply orb_true_r.
  - rewrite sevenseg_setup_bits by lia. apply andb_false_r.
Qed.

Lemma sevenseg_exec_pins_ok c g :
  sevenseg_pins_ok g → sevenseg_pins_ok (run_hw (SevenSeg.exec c) g).
Proof.
  intros (Hkey & Hdir & Hout).
  destruct (sevenseg_exec_regs c g) as [digits Hregs].
  split; [| split]; [intros i Hi |..]; rewrite !Hregs, !updateDisplay_regs.
  - destruct (Hkey i Hi) as (H1 & H2 & H3 & H4).
    split; [done | split; [done | split; [done |]]].
    reg_simpl. rewrite H4, testbit_BIT0 by lia.
    by replace (i =? 0) with false by lia.
  - done.
  - reg_simpl. apply andb_false_r.
Qed.

(** X16.  In the 7-segment build the display shares port 2 with the keypad,
    and never disturbs it: after [setupGPIO] and any sequence of display
    calls the keypad pins P2.3-P2.6 are still GPIO inputs with pull-ups and
    the strobe pin P2.0 is an output at rest low.  Each [updateDisplay]
    leaves the position select P4OUT at 3 and on P6OUT the value of the
    fourth character shown, and changes no register other than P2OUT, P4OUT
    and P6OUT. *)
Theorem sevenseg_display_keeps_keypad_pins
    (calls : list SevenSeg.call) (digits : list Z) (g : regs) :
  sevenseg_pins_ok
    (run_hw (concat (SevenSeg.exec <$> calls)) (SevenSeg.setupGPIO g)) ∧
  run_hw (SevenSeg.updateDisplay digits) g (OUT P4OUT) = 3 ∧
  run_hw (SevenSeg.updateDisplay digits) g (OUT P6OUT)
    = SevenSeg.digitVal (rd (SevenSeg.displayBuffer digits) 3) ∧
  (∀ r, r ≠ OUT P2OUT → r ≠ OUT P4OUT → r ≠ OUT P6OUT →
        run_hw (SevenSeg.updateDisplay digits) g r = g r).
Proof.
  split; [| split; [| split]].
  - generalize (sevenseg_setup_pins_ok g). generalize (SevenSeg.setupGPIO g).
    induction calls as [| c cs IH]; intros g0 Hg0; [done |].
    cbn [fmap list_fmap concat]. rewrite run_hw_app.
    by apply IH, sevenseg_exec_pins_ok.
  - by rewrite updateDisplay_regs.
  - rewrite updateDisplay_regs. apply to_uchar_small.
    unfold SevenSeg.digitVal.
    destruct (Z.leb_spec (chr "0") (rd (SevenSeg.displayBuffer digits) 3)),
      (Z.leb_spec (rd (SevenSeg.displayBuffer digits) 3) (chr "9"));
      simpl; change (chr "0") with 48 in *; change (chr "9") with 57 in *; lia.
  - intros r H2 H4 H6. rewrite updateDisplay_regs.
    by destruct r as [[] | | | | | | |].
Qed.

Lemma sevenseg_display_keeps_keypad_pins_witness :
  Z.testbit
    (run_hw (concat (SevenSeg.exec <$> (SevenSeg.handle (chr "D") entering_9999).2))
       (SevenSeg.setupGPIO regs_reset) (OUT P2OUT)) 3 = true ∧
  run_hw (SevenSeg.updateDisplay (cstring "1234")) regs_reset P2REN = 0.
Proof.
  destruct (sevenseg_display_keeps_keypad_pins
              (SevenSeg.handle (chr "D") entering_9999).2 (cstring "1234") regs_reset)
    as (Hpins & _ & _ & Hframe).
  split.
  - destruct Hpins as (Hkey & _ & _). by destruct (Hkey 3) as (_ & _ & _ & H); [lia |].
  - by rewrite Hframe.
Defined.

(** * What reaches the displays *)

Lemma displayBuffer_at digits i :
  0 ≤ i ≤ 3 →
  rd (SevenSeg.displayBuffer digits) i =
    if i <? strlen digits then rd digits i else chr "0".
Proof.
  intros Hi. unfold SevenSeg.displayBuffer. change (seqZ 0 4) with [0; 1; 2; 3].
  assert (i = 0 ∨ i = 1 ∨ i = 2 ∨ i = 3) as Hc by lia.
  repeat (destruct Hc as [-> | Hc]); try reflexivity. by subst i.
Qed.

(** X17.  Whatever [updateDisplay] is given (a string that is too short, too
    long or holds other characters than digits) it selects the positions 0,
    1, 2, 3 in this order, writes for each a value between 0 and 9 to P6OUT
    (the value of the character when the string reaches that position and
    has a digit there, 0 otherwise), waits, and ends with one strobe pulse;
    it waits 250000 cycles in all. *)
Theorem updateDisplay_writes_bcd (digits : list Z) :
  let v i := if (i <? strlen digits) && is_digit (rd digits i)
             then rd digits i - chr "0" else 0 in
  SevenSeg.updateDisplay digits =
    [PortWrite P4OUT 0; PortWrite P6OUT (v 0); DelayCycles 50000;
     PortWrite P4OUT 1; PortWrite P6OUT (v 1); DelayCycles 50000;
     PortWrite P4OUT 2; PortWrite P6OUT (v 2); DelayCycles 50000;
     PortWrite P4OUT 3; PortWrite P6OUT (v 3); DelayCycles 50000;
     PortSet P2OUT BIT0; DelayCycles 50000; PortClear P2OUT BIT0] ∧
  (∀ i, 0 ≤ v i ≤ 9) ∧
  delay_cycles (SevenSeg.updateDisplay digits) = 250000.
Proof.
  intros v.
  assert (∀ i, 0 ≤ i ≤ 3 →
               SevenSeg.digitVal (rd (SevenSeg.displayBuffer digits) i) = v i) as Hv.
  { intros i Hi. rewrite displayBuffer_at by done. unfold v, SevenSeg.digitVal.
    destruct (i <? strlen digits); [by unfold is_digit | reflexivity]. }
  split; [| split].
  - unfold SevenSeg.updateDisplay. change (seqZ 0 4) with [0; 1; 2; 3].
    cbn [fmap list_fmap concat app]. by rewrite !Hv by lia.
  - intros i. unfold v, is_digit. change (chr "0") with 48. change (chr "9") with 57.
    destruct (i <? strlen digits); simpl; [| lia].
    destruct (Z.leb_spec 48 (rd digits i)), (Z.leb_spec (rd digits i) 57);
      simpl; lia.
  - unfold SevenSeg.updateDisplay. change (seqZ 0 4) with [0; 1; 2; 3].
    reflexivity.
Qed.

Lemma display_terminated (buf rest : list Z) :
  Forall (λ c, c ≠ 0) buf → (length buf ≤ 4)%nat →
  SevenSeg.displayBuffer (buf ++ 0 :: rest) =
    buf ++ replicate (4 - length buf) (chr "0") ++ [0].
Proof.
  intros Hnz Hlen. unfold SevenSeg.displayBuffer.
  rewrite strlen_terminated by done.
  destruct buf as [| a [| b [| c [| d [| e buf]]]]]; try reflexivity.
  simpl in Hlen. lia.
Qed.

(** X18.  While a PIN is typed the 7-segment display shows the digits typed
    so far, left aligned, and '0' in the positions not yet typed; so an entry
    made of zeros only looks exactly like the cleared display. *)
Theorem sevenseg_entry_display (s : lock_state) :
  state_ok s →
  SevenSeg.displayBuffer (enteredPassword s) =
    entry_buffer s ++ replicate (4 - length (entry_buffer s)) (chr "0") ++ [0] ∧
  (Forall (λ c, c = chr "0") (entry_buffer s) →
   SevenSeg.updateDisplay (enteredPassword s) = SevenSeg.clearDisplay).
Proof.
  intros Hok.
  assert (SevenSeg.displayBuffer (enteredPassword s) =
            entry_buffer s ++ replicate (4 - length (entry_buffer s)) (chr "0") ++ [0])
    as Hbuf.
  { rewrite (entered_split s Hok) at 1. apply display_terminated.
    - apply digits_nonzero. by destruct Hok.
    - pose proof (buffer_length s Hok). destruct Hok. lia. }
  split; [exact Hbuf |]. intros Hzero.
  unfold SevenSeg.clearDisplay, SevenSeg.updateDisplay. rewrite Hbuf.
  pose proof (buffer_length s Hok) as Hlen. destruct Hok as [_ _ _ _ Hidx _ _ _].
  destruct (entry_buffer s) as [| a [| b [| c [| d [| e buf]]]]];
    [| | | | | simpl in Hlen; lia];
    repeat match goal with
    | H : Forall _ (_ :: _) |- _ => apply Forall_cons in H as [-> H]
    end; reflexivity.
Qed.

(** One '0' typed after 'A'. *)
Lemma sevenseg_entry_display_witness :
  let s := (SevenSeg.handle (chr "0") (SevenSeg.handle (chr "A") initial_state).1).1 in
  SevenSeg.displayBuffer (enteredPassword s) = cstring "0000" ∧
  SevenSeg.updateDisplay (enteredPassword s) = SevenSeg.clearDisplay.
Proof.
  intros s.
  assert (state_ok s) as Hok by (do 2 apply sevenseg_handle_ok; apply initial_state_ok).
  destruct (sevenseg_entry_display s Hok) as [Hbuf Hclear].
  split; [by rewrite Hbuf | apply Hclear; repeat constructor].
Defined.

Lemma str_chars_length (msg : list Z) : Z.of_nat (length (str_chars msg)) = strlen msg.
Proof.
  induction msg as [| c msg IH]; [reflexivity |].
  simpl. destruct (c =? 0); [reflexivity |]. simpl length. lia.
Qed.

Lemma str_chars_nonzero (msg : list Z) : Forall (λ c, c ≠ 0) (str_chars msg).
Proof.
  induction msg as [| c msg IH]; [constructor |].
  simpl. destruct (Z.eqb_spec c 0); by constructor.
Qed.

(** X19.  [displayMessage] never overruns its 100-byte buffer: the text it
    hands to the display library is at most 100 bytes long, ends with a NUL
    and has no NUL before it; a message of up to 98 characters is passed in
    full, followed by one space, and a longer one is cut after its first 99
    characters. *)
Theorem displayMessage_fits_buffer (msg : list Z) :
  ∃ text,
    Oled.displayMessage msg =
      [Ssd1306ClearDisplay; Ssd1306PrintTextBlock 0 2 text; DelayCycles 100000] ∧
    (length text ≤ 100)%nat ∧
    str_chars text ++ [0] = text ∧
    (strlen msg ≤ 98 → text = str_chars msg ++ [chr " "; 0]) ∧
    (99 ≤ strlen msg → text = take 99 (str_chars msg) ++ [0]).
Proof.
  eexists. split; [reflexivity |].
  pose proof (str_chars_length msg) as Hlen.
  split; [| split; [| split]].
  - rewrite length_app, length_take. cbn [length]. lia.
  - f_equal. apply str_chars_terminated.
    apply Forall_take, Forall_app. split; [apply str_chars_nonzero |].
    by repeat constructor.
  - intros Hshort. rewrite take_ge; [by rewrite <- app_assoc |].
    rewrite length_app. simpl. lia.
  - intros Hlong. by rewrite take_app_le by lia.
Qed.

Lemma displayMessage_fits_buffer_witness :
  Oled.displayMessage (cstring "Wrong PIN! Press C to try again") =
    [Ssd1306ClearDisplay;
     Ssd1306PrintTextBlock 0 2 (cstring "Wrong PIN! Press C to try again ");
     DelayCycles 100000].
Proof.
  destruct (displayMessage_fits_buffer (cstring "Wrong PIN! Press C to try again"))
    as (text & Hdisp & _ & _ & Hshort & _).
  rewrite Hdisp, Hshort; [reflexivity | vm_compute; discriminate].
Defined.

(** X20.  The OLED build shows the PIN in clear while it is typed: a digit
    accepted in Set-PIN or Enter-PIN mode makes the display print exactly
    the digits typed so far, the new one included, followed by a space. *)
Theorem oled_shows_typed_digits (key : Z) (s : lock_state) :
  state_ok s → mode s = SettingPin ∨ mode s = EnteringPin →
  is_digit key = true → index s < 4 →
  concat (Oled.exec <$> (Oled.handle key s).2) =
    [Ssd1306ClearDisplay;
     Ssd1306PrintTextBlock 0 2 (entry_buffer s ++ [key; chr " "; 0]);
     DelayCycles 100000].
Proof.
  intros Hok Hm Hd Hi.
  assert ((Oled.handle key s).2
          = [Oled.DisplayMessage (enteredPassword (append_key key s))]) as ->.
  { revert Hm. unfold SettingPin, EnteringPin. intros Hm.
    handle_cases; bool_hyps; try reflexivity; try congruence; lia. }
  pose proof (append_key_ok key s Hok Hd Hi) as Hok'.
  cbn [fmap list_fmap concat Oled.exec]. rewrite app_nil_r.
  unfold Oled.displayMessage.
  rewrite (entered_chars _ Hok'), (append_key_buffer key s Hok Hi).
  pose proof (buffer_length s Hok) as Hlen.
  rewrite take_ge by (rewrite !length_app; simpl; lia).
  by rewrite <- !app_assoc.
Qed.

Lemma oled_shows_typed_digits_witness :
  concat (Oled.exec <$> (Oled.handle (chr "3") setting_12).2) =
    [Ssd1306ClearDisplay; Ssd1306PrintTextBlock 0 2 (cstring "123 ");
     DelayCycles 100000].
Proof.
  apply (oled_shows_typed_digits (chr "3") setting_12 setting_12_ok).
  - by left.
  - reflexivity.
  - reflexivity.
Defined.

(** * Busy-waiting *)

Lemma delay_cycles_app t1 t2 :
  delay_cycles (t1 ++ t2) = delay_cycles t1 + delay_cycles t2.
Proof.
  induction t1 as [| e t1 IH]; [reflexivity |].
  cbn [app delay_cycles foldr]. fold (delay_cycles (t1 ++ t2)).
  fold (delay_cycles t1). rewrite IH. destruct e; lia.
Qed.

Lemma delay_updateDisplay digits : delay_cycles (SevenSeg.updateDisplay digits) = 250000.
Proof.
  unfold SevenSeg.updateDisplay. change (seqZ 0 4) with [0; 1; 2; 3]. reflexivity.
Qed.

Lemma sevenseg_handle_delay key s :
  let d := delay_cycles (concat (SevenSeg.exec <$> (SevenSeg.handle key s).2)) in
  d = 0 ∨ d = 250000 ∨ d = 700000.
Proof.
  cbv zeta.
  handle_cases; cbn [snd fmap list_fmap concat SevenSeg.exec];
    unfold SevenSeg.clearDisplay, SevenSeg.displayError;
    rewrite ?delay_cycles_app, ?delay_updateDisplay; cbn [delay_cycles foldr]; lia.
Qed.

Lemma oled_handle_delay key s :
  let d := delay_cycles (concat (Oled.exec <$> (Oled.handle key s).2)) in
  d = 0 ∨ d = 100000 ∨ d = 60100000.
Proof.
  cbv zeta.
  handle_cases; cbn [snd fmap list_fmap concat Oled.exec];
    rewrite ?delay_cycles_app;
    change (delay_cycles Oled.flashLockedLED) with 60000000;
    cbn [delay_cycles foldr Oled.displayMessage]; lia.
Qed.

(** X21.  How long the keypad goes unpolled: handling one key busy-waits
    for 0, 250000 or 700000 cycles in the 7-segment build and for 0, 100000
    or 60100000 cycles in the OLED build (the last value is the wrong-PIN
    path of each), and a whole turn of the main loop, debounce delay
    included, for at most 900000, respectively 60300000, cycles. *)
Theorem loop_turn_busy_wait (P2IN key : Z) (st : Z * lock_state) (s : lock_state) :
  0 ≤ delay_cycles (SevenSeg.loop_iteration P2IN st).2 ≤ 900000 ∧
  0 ≤ delay_cycles (Oled.loop_iteration P2IN st).2 ≤ 60300000 ∧
  (let d := delay_cycles (concat (SevenSeg.exec <$> (SevenSeg.handle key s).2)) in
   d = 0 ∨ d = 250000 ∨ d = 700000) ∧
  (let d := delay_cycles (concat (Oled.exec <$> (Oled.handle key s).2)) in
   d = 0 ∨ d = 100000 ∨ d = 60100000).
Proof.
  split; [| split; [| split]].
  - unfold SevenSeg.loop_iteration. rewrite sevenseg_poll_unfold.
    destruct (keymap (SevenSeg.bcd P2IN) =? st.1); cbn [returned lastKey' poll_trace].
    + cbn. lia.
    + destruct (keymap (SevenSeg.bcd P2IN) =? 0); [cbn; lia |].
      pose proof (sevenseg_handle_delay (keymap (SevenSeg.bcd P2IN)) st.2) as Hd.
      destruct (SevenSeg.handle (keymap (SevenSeg.bcd P2IN)) st.2) as [s' calls].
      cbn [snd] in Hd |- *. rewrite delay_cycles_app.
      change (delay_cycles [DelayCycles 200000]) with 200000. lia.
  - unfold Oled.loop_iteration. rewrite oled_poll_unfold.
    destruct (keymap (Oled.bcd P2IN) =? st.1); cbn [returned lastKey' poll_trace].
    + cbn. lia.
    + destruct (keymap (Oled.bcd P2IN) =? 0); [cbn; lia |].
      pose proof (oled_handle_delay (keymap (Oled.bcd P2IN)) st.2) as Hd.
      destruct (Oled.handle (keymap (Oled.bcd P2IN)) st.2) as [s' calls].
      cbn [snd] in Hd |- *. rewrite delay_cycles_app.
      change (delay_cycles [DelayCycles 200000]) with 200000. lia.
  - apply sevenseg_handle_delay.
  - apply oled_handle_delay.
Qed.

(** The wrong-PIN turn of the OLED build reaches the bound. *)
Example wrong_pin_turn_busy_wait :
  delay_cycles (Oled.loop_iteration 0x78 (chr "9", entering_9999)).2 = 60300000.
Proof. reflexivity. Qed.

(** * The I2C transmit interrupt *)

Lemma isr_sends (rest : list Z) (bytes : list Z) :
  (length bytes ≤ 255)%nat →
  I2cIsr.run_isr (replicate (length bytes) 12)
    (I2cIsr.TxState (Z.of_nat (length bytes)) (bytes ++ rest))
  = (I2cIsr.TxState 0 rest, I2cIsr.LoadTXBUF <$> bytes).
Proof.
  induction bytes as [| b bs IH]; intros Hlen; [reflexivity |].
  cbn [length replicate I2cIsr.run_isr].
  unfold I2cIsr.USCI_B1_ISR at 1. cbn [I2cIsr.TXByteCtr I2cIsr.PTxData].
  destruct (Z.eqb_spec (Z.of_nat (S (length bs))) 0) as [Hz | _]; [lia |].
  cbn [app hd tail]. unfold to_uchar. cbn [length] in Hlen.
  rewrite Z.mod_small by lia.
  replace (Z.of_nat (S (length bs)) - 1) with (Z.of_nat (length bs)) by lia.
  rewrite IH by lia. reflexivity.
Qed.

(** X22.  With [TXByteCtr] set to the number of bytes of a message of up to
    255 bytes and [PTxData] at its start, that many transmit interrupts load
    the bytes of the message into the transmit buffer in order and leave the
    counter at 0; one more transmit interrupt then sends no byte: it sets
    the stop condition, clears the flag and wakes the processor.  An
    interrupt with any other vector value does nothing. *)
Theorem isr_transmits_message (bytes rest : list Z) (v : Z) (st : I2cIsr.tx_state) :
  ((length bytes ≤ 255)%nat →
   I2cIsr.run_isr (replicate (length bytes) 12)
     (I2cIsr.TxState (Z.of_nat (length bytes)) (bytes ++ rest))
   = (I2cIsr.TxState 0 rest, I2cIsr.LoadTXBUF <$> bytes)) ∧
  I2cIsr.USCI_B1_ISR 12 (I2cIsr.TxState 0 rest)
    = (I2cIsr.TxState 0 rest,
       [I2cIsr.SetUCTXSTP; I2cIsr.ClearUCTXIFG; I2cIsr.ExitLPM0]) ∧
  (v ≠ 12 → I2cIsr.USCI_B1_ISR v st = (st, [])).
Proof.
  split; [apply isr_sends |]. split; [reflexivity |].
  intros Hv. unfold I2cIsr.USCI_B1_ISR.
  destruct v as [| p | p]; try reflexivity.
  do 4 (destruct p as [p | p |]; try reflexivity). contradiction.
Qed.

Lemma isr_transmits_message_witness :
  I2cIsr.run_isr [12; 12; 12] (I2cIsr.TxState 3 [0x40; 0xAE; 0xD5; 0x80])
    = (I2cIsr.TxState 0 [0x80],
       [I2cIsr.LoadTXBUF 0x40; I2cIsr.LoadTXBUF 0xAE; I2cIsr.LoadTXBUF 0xD5]) ∧
  I2cIsr.USCI_B1_ISR 4 (I2cIsr.TxState 3 [0x40]) = (I2cIsr.TxState 3 [0x40], []).
Proof.
  destruct (isr_transmits_message [0x40; 0xAE; 0xD5] [0x80] 4
              (I2cIsr.TxState 3 [0x40])) as (Hsend & _ & Hother).
  split; [apply Hsend; simpl; lia | apply Hother; discriminate].
Defined.

(** * The input-line demo *)

Lemma masked_nibble P k :
  0 ≤ k → Z.land P (Z.shiftl 15 k) = Z.shiftl (Z.land (Z.shiftr P k) 15) k.
Proof.
  intros Hk. apply Z.bits_inj'; intros n Hn.
  rewrite Z.land_spec, !Z.shiftl_spec by lia.
  destruct (Z.lt_ge_cases n k) as [Hlt | Hge].
  - rewrite (Z.testbit_neg_r 15), (Z.testbit_neg_r (Z.land _ _)) by lia.
    apply andb_false_r.
  - rewrite Z.land_spec, Z.shiftr_spec by lia. do 2 f_equal. lia.
Qed.

Lemma nibble_at_range P k : 0 ≤ Z.land (Z.shiftr P k) 15 < 16.
Proof.
  change 15 with (Z.ones 4). rewrite Z.land_ones by lia.
  apply Z.mod_pos_bound. lia.
Qed.

(** X23.  In [main copy.c] the shift matches the mask: [readBCDInput] returns
    the four lines P1.2-P1.5 as a number from 0 to 15, whatever the other
    lines of the port read, so a code put on these lines is read back; this
    is the value each turn of its loop prints. *)
Theorem readBCDInput_reads_nibble (P1IN c : Z) :
  BcdDemo.readBCDInput P1IN = Z.land (Z.shiftr P1IN 2) 15 ∧
  0 ≤ BcdDemo.readBCDInput P1IN ≤ 15 ∧
  (0 ≤ c ≤ 15 → BcdDemo.readBCDInput (Z.shiftl c 2) = c) ∧
  BcdDemo.loop_iteration P1IN =
    [BcdDemo.ClearDisplay; BcdDemo.PrintUI32 0 2 (Z.land (Z.shiftr P1IN 2) 15);
     BcdDemo.Delay 100000].
Proof.
  assert (∀ P, BcdDemo.readBCDInput P = Z.land (Z.shiftr P 2) 15) as Hread.
  { intros P. unfold BcdDemo.readBCDInput, to_uchar.
    change BcdDemo.input_mask with (Z.shiftl 15 2).
    rewrite masked_nibble, Z.shiftr_shiftl_l by lia.
    change (2 - 2) with 0. rewrite Z.shiftl_0_r.
    pose proof (nibble_at_range P 2). apply Z.mod_small. lia. }
  split; [apply Hread |]. split; [| split].
  - rewrite Hread. pose proof (nibble_at_range P1IN 2). lia.
  - intros Hc. rewrite Hread, Z.shiftr_shiftl_l by lia.
    change (2 - 2) with 0. rewrite Z.shiftl_0_r.
    change 15 with (Z.ones 4). rewrite Z.land_ones by lia.
    apply Z.mod_small. lia.
  - unfold BcdDemo.loop_iteration. by rewrite Hread.
Qed.

Lemma readBCDInput_reads_nibble_witness :
  BcdDemo.readBCDInput (Z.shiftl 9 2) = 9.
Proof.
  destruct (readBCDInput_reads_nibble 0 9) as (_ & _ & Hrt & _).
  apply Hrt. lia.
Defined.
